(** * ZK-Stats: the statistics plug-in for The Archive

    A shallow embedding of [com.will.stats.thearchiveplugin/main.js] and the
    properties of its metric calculators, table renderer and report
    composer.

    JavaScript strings are sequences of UTF-16 code units; a string is
    modelled as the list of its code units, each a number in [N].  Regular
    expressions of the script (none has the [u] flag) work on code units, as
    do [length], [slice], [padEnd] and [padStart].

    The counts of the script (note, word and link counts) are JavaScript
    numbers holding non-negative integers; they are modelled as natural
    numbers ([nat] where the script takes a length or sums lengths, [N] in
    the mapping of the months), exact as the script's arithmetic on them is
    below 2^53.  The one division of the script is done on binary64
    floating-point numbers, through the Standard Library's [SpecFloat].
    A [counts] object is a finite map from keys to counts. *)

From Stdlib Require Import NArith ZArith Lia Ascii String.
From Stdlib Require Import SpecFloat.
From stdpp Require Import base list gmap sets sorting.

(** ** Strings *)

Abbreviation jsstring := (list N).

(** The code units of an ASCII literal of the script. *)
Definition lit (s : string) : jsstring :=
  map N_of_ascii (list_ascii_of_string s).

(** [String.prototype.repeat] of a one-unit string. *)
Definition repeat_unit (c : N) (n : nat) : jsstring := replicate n c.

(** [s.padEnd(w)]: spaces appended up to length [w]; a longer [s] is kept. *)
Definition padEnd (s : jsstring) (w : nat) : jsstring :=
  s ++ repeat_unit 32%N (w - length s).

(** [s.padStart(w, '0')]. *)
Definition padStart0 (s : jsstring) (w : nat) : jsstring :=
  repeat_unit 48%N (w - length s) ++ s.

(** [s.slice(from, to)] with [from <= to]. *)
Definition slice (from to : nat) (s : jsstring) : jsstring :=
  take (to - from) (drop from s).

(** [s.slice(-n)] for a positive [n]: the last [n] units. *)
Definition slice_last (n : nat) (s : jsstring) : jsstring :=
  drop (length s - n) s.

(** [Array.prototype.join]. *)
Fixpoint join (sep : jsstring) (parts : list jsstring) : jsstring :=
  match parts with
  | [] => []
  | [p] => p
  | p :: rest => p ++ sep ++ join sep rest
  end.

(** [String(n)] of a non-negative integer: its decimal digits. *)
Fixpoint uint_units (d : Decimal.uint) : jsstring :=
  match d with
  | Decimal.Nil => []
  | Decimal.D0 r => 48%N :: uint_units r
  | Decimal.D1 r => 49%N :: uint_units r
  | Decimal.D2 r => 50%N :: uint_units r
  | Decimal.D3 r => 51%N :: uint_units r
  | Decimal.D4 r => 52%N :: uint_units r
  | Decimal.D5 r => 53%N :: uint_units r
  | Decimal.D6 r => 54%N :: uint_units r
  | Decimal.D7 r => 55%N :: uint_units r
  | Decimal.D8 r => 56%N :: uint_units r
  | Decimal.D9 r => 57%N :: uint_units r
  end.

Definition String_of_N (n : N) : jsstring := uint_units (N.to_uint n).

(** [\d]: an ASCII digit. *)
Definition is_digit (c : N) : bool := (48 <=? c)%N && (c <=? 57)%N.

(** [\s]: the white space and line terminator code points of ECMAScript. *)
Definition is_space (c : N) : bool :=
  ((9 <=? c)%N && (c <=? 13)%N)
  || (c =? 32)%N || (c =? 160)%N || (c =? 5760)%N
  || ((8192 <=? c)%N && (c <=? 8202)%N)
  || (c =? 8232)%N || (c =? 8233)%N || (c =? 8239)%N
  || (c =? 8287)%N || (c =? 12288)%N || (c =? 65279)%N.

(** ** Word counter *)

(** [text.split(/\s+/)]: the pieces between the maximal runs of white space.
    [cur] holds the piece being read, reversed; [in_ws] tells that the last
    unit read was white space, whose run has already closed a piece.  The
    empty string gives one empty piece, as does every leading or trailing
    run. *)
Fixpoint split_ws_from (in_ws : bool) (cur : jsstring) (text : jsstring)
  : list jsstring :=
  match text with
  | [] => [rev cur]
  | c :: rest =>
      if is_space c then
        if in_ws then split_ws_from true cur rest
        else rev cur :: split_ws_from true [] rest
      else split_ws_from false (c :: cur) rest
  end.

Definition split_ws (text : jsstring) : list jsstring :=
  split_ws_from false [] text.

Definition countWords (text : jsstring) : nat :=
  length (filter (fun word => 0 < length word) (split_ws text)).

(** ** Link counter *)

(** The class [[ ,§]] of [linkRegex]. *)
Definition is_link_delim (c : N) : bool :=
  (c =? 32)%N || (c =? 44)%N || (c =? 167)%N.

(** [text.match(/[ ,§]\[\[/g)]: the matches are found from left to right,
    each search resuming after the end of the previous match. *)
Fixpoint link_matches (text : jsstring) : list jsstring :=
  match text with
  | [] => []
  | c :: rest =>
      match rest with
      | c1 :: c2 :: rest' =>
          if is_link_delim c && (c1 =? 91)%N && (c2 =? 91)%N
          then [c; c1; c2] :: link_matches rest'
          else link_matches rest
      | _ => link_matches rest
      end
  end.

(** [match] gives [null] when nothing matched. *)
Definition text_match_links (text : jsstring) : option (list jsstring) :=
  match link_matches text with
  | [] => None
  | ms => Some ms
  end.

Definition countLinks (text : jsstring) : nat :=
  match text_match_links text with
  | Some matches => length matches
  | None => 0
  end.

(** ** Notes *)

Record note := Note { content : jsstring; filename : jsstring }.

(** ** Tag matcher *)

(** [s.startsWith(pat)], the test [includes] makes at each position. *)
Fixpoint starts_with (pat s : jsstring) : bool :=
  match pat, s with
  | [], _ => true
  | _ :: _, [] => false
  | p :: pat', c :: s' => (p =? c)%N && starts_with pat' s'
  end.

(** [s.includes(pat)]: [pat] occurs at some position of [s]. *)
Fixpoint includes (s pat : jsstring) : bool :=
  starts_with pat s
  || match s with
     | [] => false
     | _ :: s' => includes s' pat
     end.

Definition proofing_tag : jsstring := lit "#proofing".

Definition countProofingNotes (notes : list note) : nat :=
  length (filter (fun note => includes (content note) proofing_tag = true) notes).

(** ** Monthly classifier *)

(** [\d{12}] tried at the start of [s]. *)
Definition digits12_at (s : jsstring) : bool :=
  (length (take 12 s) =? 12) && forallb is_digit (take 12 s).

(** [s.match(/\d{12}/)]: the leftmost position where twelve digits follow
    one another; [match[0]] is the matched text, [null] is [None]. *)
Fixpoint match_digits12 (s : jsstring) : option jsstring :=
  match s with
  | [] => None
  | _ :: rest => if digits12_at s then Some (take 12 s) else match_digits12 rest
  end.

(** The key a note is counted under, if its file name has a time stamp. *)
Definition month_key_of (name : jsstring) : option jsstring :=
  match match_digits12 name with
  | Some dateStr =>
      let year := slice 0 4 dateStr in
      let month := slice 4 6 dateStr in
      Some (year ++ lit "-" ++ month)
  | None => None
  end.

(** The body of the [forEach] of [countFilesByMonth]:
    [counts[key] = (counts[key] || 0) + 1]. *)
Definition count_note (counts : gmap jsstring N) (n : note) : gmap jsstring N :=
  match month_key_of (filename n) with
  | Some key => <[key := (default 0 (counts !! key) + 1)%N]> counts
  | None => counts
  end.

Definition countFilesByMonth (notes : list note) : gmap jsstring N :=
  foldl count_note ∅ notes.

(** ** Table renderer *)

(** The default order of [Array.prototype.sort]: strings compared unit by
    unit, a proper prefix before its extensions. *)
Fixpoint str_leb (s t : jsstring) : bool :=
  match s, t with
  | [], _ => true
  | _ :: _, [] => false
  | a :: s', b :: t' =>
      if (a <? b)%N then true
      else if (a =? b)%N then str_leb s' t'
      else false
  end.

Definition str_le (s t : jsstring) : Prop := str_leb s t = true.

#[global] Instance str_le_dec : RelDecision str_le.
Proof. intros s t. unfold str_le. apply _. Defined.

Definition months : list jsstring :=
  [lit "Jan"; lit "Feb"; lit "Mar"; lit "Apr"; lit "May"; lit "Jun";
   lit "Jul"; lit "Aug"; lit "Sep"; lit "Oct"; lit "Nov"; lit "Dec"].

(** [Object.keys(counts)] and [Object.values(counts)], in the one order the
    object enumerates its properties. *)
Definition Object_keys (counts : gmap jsstring N) : list jsstring :=
  (map_to_list counts).*1.

Definition Object_values (counts : gmap jsstring N) : list N :=
  (map_to_list counts).*2.

(** The years of the table: the [Set] of the first four units of every key,
    as a sorted array. *)
Definition table_years (counts : gmap jsstring N) : list jsstring :=
  let years : gset jsstring := list_to_set (slice 0 4 <$> Object_keys counts) in
  merge_sort str_le (elements years).

(** The key of the cell of [year] in the column [index]:
    [`${year}-${String(index + 1).padStart(2, '0')}`]. *)
Definition cell_key (year : jsstring) (index : nat) : jsstring :=
  year ++ lit "-" ++ padStart0 (String_of_N (N.of_nat (index + 1))) 2.

(** What a cell shows: [String(counts[key] || 0)], padded.  A key that is
    absent (or holds 0) shows 0. *)
Definition table_cell (counts : gmap jsstring N) (maxMonthWidth : nat)
    (year : jsstring) (index : nat) : jsstring :=
  padEnd (String_of_N (default 0%N (counts !! cell_key year index))) maxMonthWidth.

(** The row of a year, built by the inner [forEach] over the months. *)
Definition table_row (counts : gmap jsstring N) (maxYearWidth maxMonthWidth : nat)
    (year : jsstring) : jsstring :=
  let row := lit "| " ++ padEnd year maxYearWidth ++ lit " |" in
  foldl (fun row index =>
           row ++ lit " " ++ table_cell counts maxMonthWidth year index ++ lit " |")
        row (seq 0 (length months)).

Definition newline : jsstring := [10%N].

(** The widths [createMonthlyTable] computes before it renders.
    [Math.max] of the lengths and a last, fixed argument. *)
Definition maxYearWidth (years : list jsstring) : nat :=
  max_list ((length <$> years) ++ [length (lit "Year")]).

Definition maxMonthWidth : nat := max_list (length <$> months).

Definition maxCountWidth (counts : gmap jsstring N) : nat :=
  max_list (((fun count => length (String_of_N count)) <$> Object_values counts) ++ [1]).

(** [maxCountWidth] is bound, as in the script, and used nowhere below. *)
Definition createMonthlyTable (counts : gmap jsstring N) : jsstring :=
  let years := table_years counts in
  let maxYearWidth := maxYearWidth years in
  let maxMonthWidth := maxMonthWidth in
  let maxCountWidth := maxCountWidth counts in
  let table :=
    lit "| " ++ padEnd (lit "Year") maxYearWidth ++ lit " | "
    ++ join (lit " | ") ((fun month => padEnd month maxMonthWidth) <$> months)
    ++ lit " |" ++ newline in
  let table :=
    table ++ lit "|" ++ repeat_unit 45%N (maxYearWidth + 2) ++ lit "|"
    ++ join (lit "|") ((fun _ => repeat_unit 45%N (maxMonthWidth + 2)) <$> months)
    ++ lit "|" ++ newline in
  foldl (fun table year =>
           table ++ table_row counts maxYearWidth maxMonthWidth year ++ newline)
        table years.

(** ** Averages *)

(** The numbers of the division: binary64. *)
Definition prec : Z := 53.
Definition emax : Z := 1024.

(** The binary64 number holding the integer [n]. *)
Definition number_of_nat (n : nat) : spec_float :=
  binary_normalize prec emax (Z.of_nat n) 0 false.

(** [Number.prototype.toFixed(2)].  A finite [x] is shown through the
    integer [n] nearest to [100 * x], the larger one of two equally near,
    as its digits with a point before the last two.  (A number of magnitude
    1e21 or more is shown by [String], in exponent notation; the quotients
    of the script stay below, see [average_quotient_fixed_notation].) *)
Definition nearest_hundredths (m : positive) (e : Z) : N :=
  match e with
  | Zneg p => Z.to_N ((200 * Zpos m + 2 ^ Zpos p) / 2 ^ (Zpos p + 1))
  | _ => Z.to_N (100 * Zpos m * 2 ^ e)
  end.

Definition fixed2_digits (n : N) : jsstring :=
  let m := padStart0 (String_of_N n) 3 in
  let k := length m in
  take (k - 2) m ++ lit "." ++ drop (k - 2) m.

Definition toFixed2 (x : spec_float) : jsstring :=
  match x with
  | S754_nan => lit "NaN"
  | S754_infinity s => (if s then lit "-" else []) ++ lit "Infinity"
  | S754_zero _ => fixed2_digits 0
  | S754_finite s m e =>
      (if s then lit "-" else []) ++ fixed2_digits (nearest_hundredths m e)
  end.

(** What the script interpolates into the report: a number or a string. *)
Inductive jsvalue :=
| JNum (n : N)
| JStr (s : jsstring).

Definition ToString (v : jsvalue) : jsstring :=
  match v with
  | JNum n => String_of_N n
  | JStr s => s
  end.

(** [totalNotesCount > 0 ? (total / totalNotesCount).toFixed(2) : 0]. *)
Definition average (total totalNotesCount : nat) : jsvalue :=
  if 0 <? totalNotesCount
  then JStr (toFixed2 (SFdiv prec emax (number_of_nat total) (number_of_nat totalNotesCount)))
  else JNum 0.

(** ** Report composer *)

(** The fields the script reads from [new Date()]. *)
Record Date := {
  getFullYear : Z;
  getMonth : N;
  getDate : N;
  getHours : N;
  getMinutes : N
}.

(** [String(n)] of an integer. *)
Definition String_of_Z (z : Z) : jsstring :=
  match z with
  | Zneg p => lit "-" ++ String_of_N (Npos p)
  | _ => String_of_N (Z.to_N z)
  end.

(** [('0' + n).slice(-2)]. *)
Definition two_digits (n : N) : jsstring :=
  slice_last 2 (lit "0" ++ String_of_N n).

Definition timestampString (now : Date) : jsstring :=
  join [] [String_of_Z (getFullYear now);
           two_digits (getMonth now + 1);
           two_digits (getDate now);
           two_digits (getHours now);
           two_digits (getMinutes now)].

Definition targetFilename (now : Date) (targetTitle : jsstring) : jsstring :=
  timestampString now ++ lit " " ++ targetTitle.

Definition humanReadableDate (now : Date) : jsstring :=
  join (lit "-") [two_digits (getDate now);
                  two_digits (getMonth now + 1);
                  String_of_Z (getFullYear now)].

Definition formattedTime (now : Date) : jsstring :=
  let hours24 := getHours now in
  let minutes := two_digits (getMinutes now) in
  let ampm := if (12 <=? hours24)%N then lit "PM" else lit "AM" in
  let hours12 := if (hours24 mod 12 =? 0)%N then 12%N else (hours24 mod 12)%N in
  let formattedHours := two_digits hours12 in
  formattedHours ++ lit ":" ++ minutes ++ lit " " ++ ampm.

Definition String_of_nat (n : nat) : jsstring := String_of_N (N.of_nat n).

Definition totalNotesCount (notes : list note) : nat := length notes.

Definition totalWordCount (notes : list note) : nat :=
  foldl (fun acc note => acc + countWords (content note)) 0 notes.

Definition totalLinkCount (notes : list note) : nat :=
  foldl (fun acc note => acc + countLinks (content note)) 0 notes.

Definition averageWordCount (notes : list note) : jsvalue :=
  average (totalWordCount notes) (totalNotesCount notes).

Definition averageLinkCount (notes : list note) : jsvalue :=
  average (totalLinkCount notes) (totalNotesCount notes).

(** U+203A, the mark before the identifier, and U+2605, the star. *)
Definition guillemet : jsstring := [8250%N].
Definition stars : jsstring := replicate 18 9733%N.

(** The template literal of [body]; it opens and closes with a line break. *)
Definition body (targetTitle : jsstring) (now : Date) (notes : list note) : jsstring :=
  newline
  ++ lit "---" ++ newline
  ++ lit "UUID:     " ++ guillemet ++ lit "[[" ++ timestampString now ++ lit "]]" ++ newline
  ++ lit "cdate:    " ++ humanReadableDate now ++ lit " " ++ formattedTime now ++ lit " " ++ newline
  ++ lit "tags:     #statistics" ++ newline
  ++ lit "---" ++ newline
  ++ lit "# " ++ targetTitle ++ newline
  ++ newline
  ++ lit "Zettelkasten Stats" ++ newline
  ++ stars ++ newline
  ++ lit "Total Number of Notes in Zettelkasten: " ++ String_of_nat (totalNotesCount notes) ++ newline
  ++ lit "Total Word Count: " ++ String_of_nat (totalWordCount notes) ++ newline
  ++ lit "Average Word Count: " ++ ToString (averageWordCount notes) ++ newline
  ++ lit "Total Link Count: " ++ String_of_nat (totalLinkCount notes) ++ newline
  ++ lit "Average Link Count: " ++ ToString (averageLinkCount notes) ++ newline
  ++ lit "Total Notes in Proofing Oven: " ++ String_of_nat (countProofingNotes notes) ++ newline
  ++ newline
  ++ lit "Monthly Breakdown:" ++ newline
  ++ createMonthlyTable (countFilesByMonth notes) ++ newline.

(** The run of the script: the prompt gives a title or [null] (cancel). *)
Record changeFile := { out_filename : jsstring; out_content : jsstring }.

Inductive outcome :=
| Cancelled (message : jsstring)
| Created (pasteboardContents : jsstring) (file : changeFile).

Definition run (prompt : option jsstring) (now : Date) (notes : list note) : outcome :=
  match prompt with
  | None => Cancelled (lit "Creation cancelled")
  | Some targetTitle =>
      let b := body targetTitle now notes in
      Created b {| out_filename := targetFilename now targetTitle; out_content := b |}
  end.

(** ** The spec's words, and what the proofs measure with *)

(** The words of a text by the spec's words: a word starts at every unit
    that is not white space and follows white space or the start of the
    text; [after_space] tells which holds before [text]. *)
Fixpoint count_word_starts (after_space : bool) (text : jsstring) : nat :=
  match text with
  | [] => 0
  | c :: rest =>
      if is_space c then count_word_starts true rest
      else (if after_space then 1 else 0) + count_word_starts false rest
  end.

(** A run of white space, and a word: units that are not white space, at
    least one. *)
Definition all_space (s : jsstring) : Prop := Forall (fun c => is_space c = true) s.

Definition is_word (w : jsstring) : Prop :=
  w <> [] /\ Forall (fun c => is_space c = false) w.

(** A text written as words and the white space between them: white space
    (or nothing), a word, and then after every run of white space another word,
    and white space (or nothing) at the end. *)
Definition spaced_text (lead : jsstring) (w : jsstring)
    (rest : list (jsstring * jsstring)) (trail : jsstring) : jsstring :=
  lead ++ w ++ concat ((fun p => p.1 ++ p.2) <$> rest) ++ trail.

(** The link pattern of the spec, tried at the start of [s]: a space, comma
    or section mark, then two opening brackets. *)
Definition link_at (s : jsstring) : bool :=
  match s with
  | c :: c1 :: c2 :: _ => is_link_delim c && (c1 =? 91)%N && (c2 =? 91)%N
  | _ => false
  end.

(** The positions of [text] where the link pattern occurs. *)
Definition link_positions (text : jsstring) : list nat :=
  filter (fun i => link_at (drop i text) = true) (seq 0 (length text)).

(** The pieces of a split that the filter of [countWords] keeps. *)
Definition kept_words (pieces : list jsstring) : nat :=
  length (filter (fun word => 0 < length word) pieces).

(** The number of suffixes of [text] that start with a match of [f]. *)
Fixpoint count_suffixes (f : jsstring -> bool) (text : jsstring) : nat :=
  match text with
  | [] => 0
  | _ :: rest => (if f text then 1 else 0) + count_suffixes f rest
  end.

(** The spec's tag test: the literal occurs somewhere in the content. *)
Definition contains_tag (s : jsstring) : Prop :=
  exists pre post, s = pre ++ proofing_tag ++ post.

(** A string of twelve digits. *)
Definition twelve_digits (d : jsstring) : Prop :=
  length d = 12 /\ Forall (fun c => is_digit c = true) d.

(** The notes of a key. *)
Definition notes_of_key (key : jsstring) (notes : list note) : list note :=
  filter (fun n => month_key_of (filename n) = Some key) notes.

(** The rows of the table in the spec's words, for a year column [w] wide
    and month columns three wide, the width of the month abbreviations. *)
Definition table_header (w : nat) : jsstring :=
  lit "| " ++ padEnd (lit "Year") w
  ++ lit " | Jan | Feb | Mar | Apr | May | Jun | Jul | Aug | Sep | Oct | Nov | Dec |"
  ++ newline.

Definition table_separator (w : nat) : jsstring :=
  lit "|" ++ repeat_unit 45%N (w + 2)
  ++ lit "|-----|-----|-----|-----|-----|-----|-----|-----|-----|-----|-----|-----|"
  ++ newline.

Definition data_row (counts : gmap jsstring N) (w : nat) (year : jsstring) : jsstring :=
  lit "| " ++ padEnd year w ++ lit " |"
  ++ concat ((fun index => lit " " ++ table_cell counts 3 year index ++ lit " |")
               <$> seq 0 12)
  ++ newline.

(** The set of years of a mapping. *)
Definition year_set (counts : gmap jsstring N) : gset jsstring :=
  list_to_set (slice 0 4 <$> Object_keys counts).

(** The two-digit month numbers of the columns. *)
Definition month_numbers : list jsstring :=
  [lit "01"; lit "02"; lit "03"; lit "04"; lit "05"; lit "06";
   lit "07"; lit "08"; lit "09"; lit "10"; lit "11"; lit "12"].

(** The month width by the spec: the longest of the month abbreviations and
    of the counts as strings, the same for every month column. *)
Definition month_width_by_spec (counts : gmap jsstring N) : nat :=
  max maxMonthWidth (maxCountWidth counts).

(** The table by the spec, every month cell [mw] wide. *)
Definition table_of_width (mw : nat) (counts : gmap jsstring N) : jsstring :=
  let years := table_years counts in
  let w := maxYearWidth years in
  lit "| " ++ padEnd (lit "Year") w ++ lit " | "
  ++ join (lit " | ") ((fun month => padEnd month mw) <$> months) ++ lit " |" ++ newline
  ++ lit "|" ++ repeat_unit 45%N (w + 2) ++ lit "|"
  ++ join (lit "|") ((fun _ => repeat_unit 45%N (mw + 2)) <$> months) ++ lit "|" ++ newline
  ++ concat ((fun year =>
                lit "| " ++ padEnd year w ++ lit " |"
                ++ concat ((fun index => lit " " ++ table_cell counts mw year index ++ lit " |")
                             <$> seq 0 12)
                ++ newline) <$> years).

Definition createMonthlyTable_by_spec (counts : gmap jsstring N) : jsstring :=
  table_of_width (month_width_by_spec counts) counts.

(** A month with a thousand notes. *)
Definition thousand_counts : gmap jsstring N := {[ lit "2024-01" := 1000%N ]}.

(** The values the spec's document shape has places for. *)
Record report_fields := {
  f_uuid : jsstring;
  f_date : jsstring;
  f_time : jsstring;
  f_title : jsstring;
  f_notes : jsstring;
  f_words : jsstring;
  f_average_words : jsstring;
  f_links : jsstring;
  f_average_links : jsstring;
  f_proofing : jsstring;
  f_table : jsstring
}.

(** The persisted document shape of the spec, line by line; it starts with
    the opening [---] and ends with the table. *)
Definition persisted_document (f : report_fields) : jsstring :=
  concat ((fun line => line ++ newline) <$>
    [ lit "---";
      lit "UUID:     " ++ guillemet ++ lit "[[" ++ f_uuid f ++ lit "]]";
      lit "cdate:    " ++ f_date f ++ lit " " ++ f_time f ++ lit " ";
      lit "tags:     #statistics";
      lit "---";
      lit "# " ++ f_title f;
      [];
      lit "Zettelkasten Stats";
      stars;
      lit "Total Number of Notes in Zettelkasten: " ++ f_notes f;
      lit "Total Word Count: " ++ f_words f;
      lit "Average Word Count: " ++ f_average_words f;
      lit "Total Link Count: " ++ f_links f;
      lit "Average Link Count: " ++ f_average_links f;
      lit "Total Notes in Proofing Oven: " ++ f_proofing f;
      [];
      lit "Monthly Breakdown:" ])
  ++ f_table f.

(** The values of a run. *)
Definition fields_of (targetTitle : jsstring) (now : Date) (notes : list note)
  : report_fields :=
  {| f_uuid := timestampString now;
     f_date := humanReadableDate now;
     f_time := formattedTime now;
     f_title := targetTitle;
     f_notes := String_of_nat (totalNotesCount notes);
     f_words := String_of_nat (totalWordCount notes);
     f_average_words := ToString (averageWordCount notes);
     f_links := String_of_nat (totalLinkCount notes);
     f_average_links := ToString (averageLinkCount notes);
     f_proofing := String_of_nat (countProofingNotes notes);
     f_table := createMonthlyTable (countFilesByMonth notes) |}.

(** A run with three notes, two of them time-stamped in January 2024. *)
Definition example_now : Date :=
  {| getFullYear := 2024; getMonth := 9; getDate := 12; getHours := 14; getMinutes := 5 |}.

Definition example_notes : list note :=
  [ Note (lit "hello world #proofing") (lit "202401010900 first");
    Note (lit "a b c d") (lit "202401021000 second");
    Note (lit ", [[x]]") (lit "third") ].

(** A string of digits with a point before the last two. *)
Definition two_decimals (s : jsstring) : Prop :=
  exists int d1 d2,
    s = int ++ lit "." ++ [d1; d2]
    /\ int <> [] /\ Forall (fun c => is_digit c = true) (int ++ [d1; d2]).

(** A moment of a four-digit year, as [Date] gives it. *)
Definition valid_date (now : Date) : Prop :=
  (1000 <= getFullYear now <= 9999)%Z
  /\ (getMonth now <= 11)%N
  /\ (1 <= getDate now <= 31)%N
  /\ (getHours now <= 23)%N
  /\ (getMinutes now <= 59)%N.

(** The checks run over all two-digit fields and all four-digit years. *)
Definition two_digits_ok (n : N) : bool :=
  (length (two_digits n) =? 2) && forallb is_digit (two_digits n).

Definition year_ok (n : N) : bool :=
  (n <? 1000)%N
  || ((length (String_of_Z (Z.of_N n)) =? 4)
      && forallb is_digit (String_of_Z (Z.of_N n))).

(** The numbers [toFixed] shows in fixed notation: zero and the finite
    numbers of magnitude below 1e21. *)
Definition fixed_notation (x : spec_float) : Prop :=
  match x with
  | S754_zero _ => True
  | S754_finite _ m e =>
      (Zpos m * 2 ^ Z.max e 0 < 10 ^ 21 * 2 ^ Z.max (- e) 0)%Z
  | _ => False
  end.

(** *** For the further properties *)

(** The number of notes a mapping of the months accounts for. *)
Definition counted_notes (counts : gmap jsstring N) : nat :=
  sum_list_with N.to_nat (Object_values counts).

(** The notes whose file name has a time stamp. *)
Definition stamped_notes (notes : list note) : list note :=
  filter (fun n => is_Some (month_key_of (filename n))) notes.

(** A key of the form [YYYY-MM]: four digits, a dash, two digits. *)
Definition month_key_shape (key : jsstring) : Prop :=
  exists year month,
    key = year ++ lit "-" ++ month
    /\ length year = 4 /\ Forall (fun c => is_digit c = true) year
    /\ length month = 2 /\ Forall (fun c => is_digit c = true) month.

(** A corpus of four notes: two of January 2024, one with no time stamp,
    one whose time stamp has the month digits 13. *)
Definition example_corpus : list note :=
  [ Note (lit "hello world #proofing") (lit "202401010900 first");
    Note (lit "a b c d") (lit "202401021000 second");
    Note (lit ", [[x]]") (lit "third");
    Note (lit "see [[a]], [[b]]") (lit "202313051200 fourth") ].

(** A line: a string with no line break in it. *)
Definition no_newline (s : jsstring) : Prop := Forall (fun c => c <> 10%N) s.

(** The check run over all counts below 1000. *)
Definition narrow_ok (n : N) : bool :=
  (length (String_of_N n) <=? 3).

(** The line of a year: its row without the line break. *)
Definition year_line (counts : gmap jsstring N) (year : jsstring) : jsstring :=
  lit "| " ++ padEnd year 4 ++ lit " |"
  ++ concat ((fun index => lit " " ++ table_cell counts 3 year index ++ lit " |")
               <$> seq 0 12).

(** The number a string of digits writes. *)
Definition parse_units (s : jsstring) : N :=
  foldl (fun acc c => (10 * acc + (c - 48))%N) 0%N s.

(** The checks that [parse_units] reads back two-digit fields and years. *)
Definition two_digits_parse_ok (n : N) : bool :=
  (parse_units (two_digits n) =? n)%N.

Definition year_parse_ok (n : N) : bool :=
  (n <? 1000)%N || (parse_units (String_of_Z (Z.of_N n)) =? n)%N.

(** The hour and minute of a day. *)
Definition valid_time (now : Date) : Prop :=
  (getHours now <= 23)%N /\ (getMinutes now <= 59)%N.

(** Whether white space (or the start, for [after_space]) comes right
    before what follows [text]. *)
Fixpoint after_text (after_space : bool) (text : jsstring) : bool :=
  match text with
  | [] => after_space
  | c :: rest => after_text (is_space c) rest
  end.

(** The cells of the columns [from], ..., [from + n - 1] of the row of a
    year, as the row holds them one after the other. *)
Definition row_cells (counts : gmap jsstring N) (year : jsstring) (from n : nat)
  : jsstring :=
  concat ((fun index => lit " " ++ table_cell counts 3 year index ++ lit " |")
            <$> seq from n).

(** The rendered table holds the row of [year]: the string
    [createMonthlyTable] returns is the header, the separator, the rows of
    the years before [year], the row of [year] and the rows of the years
    after it. *)
Definition row_rendered (counts : gmap jsstring N) (year : jsstring) : Prop :=
  exists before after,
    table_years counts = before ++ year :: after
    /\ createMonthlyTable counts
       = table_header (maxYearWidth (table_years counts))
         ++ table_separator (maxYearWidth (table_years counts))
         ++ concat (data_row counts (maxYearWidth (table_years counts)) <$> before)
         ++ data_row counts (maxYearWidth (table_years counts)) year
         ++ concat (data_row counts (maxYearWidth (table_years counts)) <$> after).


(** * Properties *)

(** ** Word counter *)

Lemma kept_words_cons piece pieces :
  kept_words (piece :: pieces)
  = (if decide (0 < length piece) then 1 else 0) + kept_words pieces.
Proof.
  unfold kept_words. rewrite filter_cons.
  destruct (decide (0 < length piece)); reflexivity.
Qed.

Lemma split_ws_from_words text : forall in_ws cur,
  (in_ws = true -> cur = []) ->
  kept_words (split_ws_from in_ws cur text)
  = match cur with
    | [] => count_word_starts true text
    | _ :: _ => 1 + count_word_starts false text
    end.
Proof.
  induction text as [|c rest IH]; intros in_ws cur Hinv; simpl.
  - rewrite kept_words_cons. destruct cur as [|x cur]; simpl; [reflexivity|].
    rewrite length_app. simpl. destruct (decide _); [reflexivity | lia].
  - destruct (is_space c) eqn:Hc.
    + destruct in_ws.
      * rewrite (Hinv eq_refl). apply (IH true []). reflexivity.
      * rewrite kept_words_cons, (IH true []) by reflexivity.
        destruct cur as [|x cur]; simpl; [reflexivity|].
        rewrite length_app. simpl. destruct (decide _); [reflexivity | lia].
    + rewrite (IH false (c :: cur)) by discriminate.
      destruct cur; reflexivity.
Qed.

Lemma count_word_starts_spaces text b :
  forallb is_space text = true -> count_word_starts b text = 0.
Proof.
  revert b. induction text as [|c rest IH]; intros b H; simpl in *; [reflexivity|].
  apply andb_true_iff in H as [Hc Hrest]. rewrite Hc. apply IH, Hrest.
Qed.

Lemma count_word_starts_space_run ws text b :
  all_space ws ->
  count_word_starts b (ws ++ text)
  = count_word_starts (match ws with [] => b | _ => true end) text.
Proof.
  intros Hws. revert b. induction Hws as [|c ws Hc _ IH]; intros b; [reflexivity|].
  cbn [app count_word_starts]. rewrite Hc, IH. destruct ws; reflexivity.
Qed.

Lemma count_word_starts_word w text b :
  is_word w ->
  count_word_starts b (w ++ text)
  = (if b then 1 else 0) + count_word_starts false text.
Proof.
  intros [Hne Hw]. revert b. induction Hw as [|c w Hc Hw IH]; intros b; [congruence|].
  cbn [app count_word_starts]. rewrite Hc.
  destruct w as [|c' w]; [reflexivity|].
  rewrite IH by discriminate. reflexivity.
Qed.

Lemma count_word_starts_spaced rest trail :
  Forall (fun p => p.1 <> [] /\ all_space p.1 /\ is_word p.2) rest ->
  all_space trail ->
  count_word_starts false (concat ((fun p => p.1 ++ p.2) <$> rest) ++ trail)
  = length rest.
Proof.
  intros Hrest Htrail. induction Hrest as [|[sep w] rest (Hne & Hsep & Hw) _ IH].
  - simpl. rewrite <- (app_nil_r trail), count_word_starts_space_run by exact Htrail.
    destruct trail; reflexivity.
  - cbn [fmap list_fmap concat fst snd length] in *.
    rewrite <- !app_assoc, count_word_starts_space_run by exact Hsep.
    destruct sep as [|c sep]; [congruence|].
    rewrite count_word_starts_word by exact Hw. rewrite IH. reflexivity.
Qed.
(** C5: the word counter counts the maximal runs of units that are not white
    space: one for every position where such a run starts, hence the number
    of words of a text written as words with white space between them,
    whatever white space leads or trails; the empty string and a string of
    white space only have none, and "a  b   c" has three. *)
Theorem countWords_counts_word_starts :
  (forall text, countWords text = count_word_starts true text)
  /\ (forall lead w rest trail,
        all_space lead -> is_word w ->
        Forall (fun p => p.1 <> [] /\ all_space p.1 /\ is_word p.2) rest ->
        all_space trail ->
        countWords (spaced_text lead w rest trail) = S (length rest))
  /\ countWords [] = 0
  /\ (forall text, forallb is_space text = true -> countWords text = 0)
  /\ countWords (lit "a  b   c") = 3
  /\ countWords (lit "  a  b   c ") = 3.
Proof.
  assert (H : forall text, countWords text = count_word_starts true text).
  { intros text. apply (split_ws_from_words text false []). discriminate. }
  split; [exact H|]. split.
  - intros lead w rest trail Hlead Hw Hrest Htrail. unfold spaced_text.
    rewrite H, count_word_starts_space_run by exact Hlead.
    replace (match lead with [] => true | _ :: _ => true end) with true
      by (destruct lead; reflexivity).
    rewrite count_word_starts_word by exact Hw.
    rewrite count_word_starts_spaced by assumption. reflexivity.
  - repeat split; try reflexivity.
    intros text Hws. rewrite H. apply count_word_starts_spaces, Hws.
Qed.

Lemma countWords_counts_word_starts_witness :
  forallb is_space (lit "  ") = true
  /\ countWords (lit "  ") = 0
  /\ countWords (spaced_text (lit " ") (lit "a") [(lit "  ", lit "bc"); ([9%N; 10%N], lit "d")] [])
     = 3.
Proof.
  split; [reflexivity|]. split.
  - apply (proj1 (proj2 (proj2 (proj2 countWords_counts_word_starts)))). reflexivity.
  - apply (proj1 (proj2 countWords_counts_word_starts)
             (lit " ") (lit "a") [(lit "  ", lit "bc"); ([9%N; 10%N], lit "d")] []).
    + repeat constructor.
    + split; [discriminate | repeat constructor].
    + repeat constructor; discriminate.
    + constructor.
Defined.

(** ** Link counter *)

Lemma positions_count_suffixes (f : jsstring -> bool) text : forall pre,
  length (filter (fun i => f (drop i (pre ++ text)) = true)
                 (seq (length pre) (length text)))
  = count_suffixes f text.
Proof.
  induction text as [|c rest IH]; intros pre; [reflexivity|].
  cbn [length seq count_suffixes]. rewrite filter_cons, drop_app_length.
  specialize (IH (pre ++ [c])).
  rewrite <- app_assoc, length_app in IH. cbn [length app] in IH.
  rewrite Nat.add_1_r in IH.
  destruct (decide (f (c :: rest) = true)) as [Hf|Hf].
  - rewrite Hf. cbn [length]. rewrite IH. reflexivity.
  - destruct (f (c :: rest)); [congruence|]. rewrite IH. reflexivity.
Qed.

Lemma link_at_bracket rest : link_at (91%N :: rest) = false.
Proof. destruct rest as [|c1 [|c2 rest]]; reflexivity. Qed.

Lemma link_matches_count_bounded n : forall text,
  length text <= n ->
  length (link_matches text) = count_suffixes link_at text.
Proof.
  induction n as [|n IH]; intros text Hlen.
  - destruct text; [reflexivity | simpl in Hlen; lia].
  - destruct text as [|c rest]; [reflexivity|].
    simpl in Hlen.
    assert (Hrest : length (link_matches rest) = count_suffixes link_at rest)
      by (apply IH; lia).
    destruct rest as [|c1 [|c2 rest2]]; try reflexivity.
    cbn [link_matches count_suffixes link_at] in *.
    destruct (is_link_delim c && (c1 =? 91)%N && (c2 =? 91)%N) eqn:Hm.
    + apply andb_true_iff in Hm as [Hm Hc2].
      apply andb_true_iff in Hm as [_ Hc1].
      apply N.eqb_eq in Hc1, Hc2. subst c1 c2.
      cbn [length]. simpl in Hlen. rewrite (IH rest2) by lia.
      destruct rest2 as [|d1 [|d2 rest3]]; reflexivity.
    + exact Hrest.
Qed.

Lemma link_matches_count text :
  length (link_matches text) = count_suffixes link_at text.
Proof. apply (link_matches_count_bounded (length text)). lia. Qed.

Lemma countLinks_length text : countLinks text = length (link_matches text).
Proof.
  unfold countLinks, text_match_links. destruct (link_matches text); reflexivity.
Qed.

Lemma link_matches_leading_link rest :
  link_matches (lit "[[" ++ rest) = link_matches rest.
Proof.
  change (lit "[[" ++ rest) with (91%N :: 91%N :: rest).
  destruct rest as [|c1 [|c2 rest]]; reflexivity.
Qed.

(** C4: the link counter returns the number of positions of the text where a
    space, comma or section mark is followed by two opening brackets (two
    such occurrences never overlap); it returns 0 when there is none, and a
    link at the very start of the text adds nothing. *)
Theorem countLinks_counts_occurrences :
  (forall text, countLinks text = length (link_positions text))
  /\ (forall text, link_positions text = [] -> countLinks text = 0)
  /\ (forall rest, countLinks (lit "[[" ++ rest) = countLinks rest)
  /\ countLinks (lit "no links here") = 0
  /\ countLinks (lit "see , [[note]] and " ++ [167%N] ++ lit "[[other]]") = 2
  /\ countLinks (lit "[[link]]") = 0.
Proof.
  assert (H : forall text, countLinks text = length (link_positions text)).
  { intros text. rewrite countLinks_length, link_matches_count.
    symmetry. apply (positions_count_suffixes link_at text []). }
  repeat split; try reflexivity; [exact H | |].
  - intros text Hnone. rewrite H, Hnone. reflexivity.
  - intros rest. rewrite !countLinks_length, link_matches_leading_link. reflexivity.
Qed.

Lemma countLinks_counts_occurrences_witness :
  link_positions (lit "no links here") = []
  /\ countLinks (lit "no links here") = 0.
Proof.
  split; [reflexivity|].
  apply (proj1 (proj2 countLinks_counts_occurrences)). reflexivity.
Defined.

(** ** Tag matcher *)

Lemma starts_with_spec pat : forall s,
  starts_with pat s = true <-> exists post, s = pat ++ post.
Proof.
  induction pat as [|p pat IH]; intros s; simpl.
  - split; [intros _; exists s; reflexivity | reflexivity].
  - destruct s as [|c s].
    + split; [discriminate | intros [post H]; discriminate].
    + rewrite andb_true_iff, N.eqb_eq, IH. split.
      * intros [-> [post ->]]. exists post. reflexivity.
      * intros [post H]. injection H as -> ->. split; [reflexivity | eauto].
Qed.

Lemma includes_spec pat : forall s,
  includes s pat = true <-> exists pre post, s = pre ++ pat ++ post.
Proof.
  induction s as [|c s IH]; simpl; rewrite orb_true_iff, starts_with_spec.
  - split.
    + intros [[post H]|H]; [|discriminate]. exists [], post. exact H.
    + intros (pre & post & H). left.
      destruct pre; [exists post; exact H | discriminate].
  - rewrite IH. split.
    + intros [[post H]|(pre & post & H)].
      * exists [], post. exact H.
      * exists (c :: pre), post. rewrite H. reflexivity.
    + intros (pre & post & H). destruct pre as [|c' pre].
      * left. exists post. exact H.
      * right. injection H as -> ->. eauto.
Qed.

#[global] Instance contains_tag_dec s : Decision (contains_tag s).
Proof.
  destruct (includes s proofing_tag) eqn:H.
  - left. apply includes_spec, H.
  - right. intros Hc. apply includes_spec in Hc. congruence.
Defined.

(** C8: the tag matcher counts the notes whose content has the literal
    [#proofing] somewhere in it, whatever follows or precedes it (so
    [#proofingnotes] counts) and with no change of case or spacing (so
    [#Proofing] and [# proofing] do not). *)
Theorem countProofingNotes_counts_substring :
  (forall notes,
     countProofingNotes notes
     = length (filter (fun n => contains_tag (content n)) notes))
  /\ (forall pre post name,
        countProofingNotes [Note (pre ++ lit "#proofing" ++ post) name] = 1)
  /\ countProofingNotes [Note (lit "see #proofingnotes") []] = 1
  /\ countProofingNotes [Note (lit "a #Proofing b") []; Note (lit "# proofing") [];
                         Note (lit "x #proofing y") []; Note (lit "proofing") []] = 1.
Proof.
  assert (H : forall notes,
     countProofingNotes notes
     = length (filter (fun n => contains_tag (content n)) notes)).
  { intros notes. unfold countProofingNotes. f_equal.
    apply list_filter_iff. intros n. apply includes_spec. }
  repeat split; try reflexivity; [exact H|].
  intros pre post name. rewrite H, filter_cons.
  destruct (decide _) as [|Hno]; [reflexivity|].
  exfalso. apply Hno. exists pre, post. reflexivity.
Qed.

(** ** Monthly classifier *)

Lemma digits12_at_spec s :
  digits12_at s = true <-> twelve_digits (take 12 s).
Proof.
  unfold digits12_at, twelve_digits.
  rewrite andb_true_iff, Nat.eqb_eq, forallb_forall, Forall_forall.
  split; intros [Hl Hd]; (split; [exact Hl|]); intros c Hc; apply Hd;
    [apply list_elem_of_In | apply list_elem_of_In in Hc]; exact Hc.
Qed.

(** [match_digits12] finds the leftmost window of twelve digits. *)
Lemma match_digits12_Some s d :
  match_digits12 s = Some d <->
  exists pre post,
    s = pre ++ d ++ post /\ twelve_digits d
    /\ forall i, i < length pre -> digits12_at (drop i s) = false.
Proof.
  revert d. induction s as [|c s IH]; intros d.
  - split; [discriminate|].
    intros (pre & post & H & [Hl _] & _).
    destruct pre; destruct d; simpl in *; discriminate.
  - cbn [match_digits12]. destruct (digits12_at (c :: s)) eqn:Hat.
    + split.
      * intros Hd. assert (d = take 12 (c :: s)) as -> by congruence.
        exists [], (drop 12 (c :: s)).
        split; [exact (eq_sym (take_drop 12 (c :: s)))|].
        split; [apply digits12_at_spec, Hat | simpl; lia].
      * intros (pre & post & H & [Hl Hd] & Hfirst).
        destruct pre as [|c' pre].
        -- simpl in H. rewrite H, take_app_length' by (symmetry; exact Hl).
           reflexivity.
        -- specialize (Hfirst 0 ltac:(simpl; lia)). simpl in Hfirst. congruence.
    + rewrite IH. split.
      * intros (pre & post & -> & Hd & Hfirst).
        exists (c :: pre), post. split; [reflexivity|]. split; [exact Hd|].
        intros [|i] Hi; [exact Hat|]. simpl in Hi |- *. apply Hfirst. lia.
      * intros (pre & post & H & Hd & Hfirst).
        destruct pre as [|c' pre].
        -- simpl in H. destruct Hd as [Hl Hd].
           assert (digits12_at (c :: s) = true); [|congruence].
           apply digits12_at_spec.
           rewrite H, take_app_length' by (symmetry; exact Hl).
           split; assumption.
        -- injection H as -> ->. exists pre, post.
           split; [reflexivity|]. split; [exact Hd|].
           intros i Hi. apply (Hfirst (S i)). simpl. lia.
Qed.

Lemma match_digits12_None s :
  match_digits12 s = None <-> forall i, digits12_at (drop i s) = false.
Proof.
  induction s as [|c s IH].
  - split; [|reflexivity]. intros _ i. rewrite drop_nil. reflexivity.
  - cbn [match_digits12]. destruct (digits12_at (c :: s)) eqn:Hat.
    + split; [discriminate|]. intros H. specialize (H 0). simpl in H. congruence.
    + rewrite IH. split.
      * intros H [|i]; [exact Hat | apply H].
      * intros H i. apply (H (S i)).
Qed.

(** A run of twelve or more digits after a prefix with no digit. *)
Lemma match_digits12_run pre run post :
  Forall (fun c => is_digit c = false) pre ->
  Forall (fun c => is_digit c = true) run ->
  12 <= length run ->
  match_digits12 (pre ++ run ++ post) = Some (take 12 run).
Proof.
  intros Hpre Hrun Hlen. induction Hpre as [|c pre Hc Hpre IH].
  - simpl. destruct run as [|r run]; [simpl in Hlen; lia|].
    cbn [app match_digits12].
    assert (Hat : digits12_at (r :: run ++ post) = true).
    { apply digits12_at_spec. change (r :: run ++ post) with ((r :: run) ++ post).
      rewrite take_app_le by exact Hlen. split.
      - rewrite length_take. lia.
      - apply Forall_take, Hrun. }
    rewrite Hat. change (r :: run ++ post) with ((r :: run) ++ post).
    rewrite take_app_le by exact Hlen. reflexivity.
  - cbn [app match_digits12].
    assert (Hat : digits12_at (c :: pre ++ run ++ post) = false).
    { unfold digits12_at. simpl. rewrite Hc. apply andb_false_r. }
    rewrite Hat. exact IH.
Qed.

Lemma count_note_lookup counts n key :
  count_note counts n !! key
  = if decide (month_key_of (filename n) = Some key)
    then Some (default 0%N (counts !! key) + 1)%N
    else counts !! key.
Proof.
  unfold count_note. destruct (month_key_of (filename n)) as [k|] eqn:Hk.
  - destruct (decide (Some k = Some key)) as [[= ->]|Hne].
    + apply lookup_insert_eq.
    + apply lookup_insert_ne. congruence.
  - destruct (decide _); [discriminate | reflexivity].
Qed.

Lemma foldl_count_note_lookup notes key : forall counts,
  foldl count_note counts notes !! key
  = match notes_of_key key notes with
    | [] => counts !! key
    | ns => Some (default 0%N (counts !! key) + N.of_nat (length ns))%N
    end.
Proof.
  induction notes as [|n notes IH]; intros counts; [reflexivity|].
  cbn [foldl]. rewrite IH, count_note_lookup. unfold notes_of_key.
  rewrite filter_cons.
  destruct (decide (month_key_of (filename n) = Some key)) as [Hk|Hk].
  - cbn [default]. destruct (filter _ notes) as [|n' ns]; [reflexivity|].
    f_equal. unfold id. cbn [length]. lia.
  - reflexivity.
Qed.

Lemma month_key_of_Some name key :
  month_key_of name = Some key <->
  exists pre d post,
    name = pre ++ d ++ post /\ twelve_digits d
    /\ (forall i, i < length pre -> digits12_at (drop i name) = false)
    /\ key = take 4 d ++ lit "-" ++ take 2 (drop 4 d).
Proof.
  unfold month_key_of. destruct (match_digits12 name) as [d|] eqn:Hm.
  - apply match_digits12_Some in Hm as Hd. destruct Hd as (pre & post & H & Hd & Hfirst).
    split.
    + intros [= <-]. exists pre, d, post. repeat split; try assumption; apply Hd.
    + intros (pre' & d' & post' & H' & Hd' & Hfirst' & ->).
      assert (Some d = Some d') as [= <-]; [|reflexivity].
      rewrite <- Hm. apply match_digits12_Some. exists pre', post'. auto.
  - split; [discriminate|].
    intros (pre & d & post & H & Hd & Hfirst & _).
    assert (match_digits12 name = Some d); [|congruence].
    apply match_digits12_Some. exists pre, post. auto.
Qed.

Lemma month_key_of_None name :
  month_key_of name = None <->
  forall i, ~ twelve_digits (take 12 (drop i name)).
Proof.
  unfold month_key_of. destruct (match_digits12 name) as [d|] eqn:Hm.
  - split; [discriminate|]. intros Hno. exfalso.
    apply match_digits12_Some in Hm as (pre & post & -> & Hd & _).
    apply (Hno (length pre)).
    rewrite drop_app_length, take_app_length' by (symmetry; apply Hd). exact Hd.
  - split; [|reflexivity]. intros _ i Hd.
    apply digits12_at_spec in Hd.
    rewrite (proj1 (match_digits12_None name) Hm i) in Hd. discriminate.
Qed.

(** C3: the monthly classifier counts every note under the key made of the
    first four digits, a dash and the next two digits of the leftmost twelve
    consecutive digits of its file name (the first twelve of a longer run),
    whatever the two month digits are; a note whose file name has no twelve
    consecutive digits is counted under no key. *)
Theorem countFilesByMonth_counts_first_timestamp :
  (forall notes key,
     countFilesByMonth notes !! key
     = match notes_of_key key notes with
       | [] => None
       | ns => Some (N.of_nat (length ns))
       end)
  /\ (forall name key,
        month_key_of name = Some key <->
        exists pre d post,
          name = pre ++ d ++ post /\ twelve_digits d
          /\ (forall i, i < length pre -> digits12_at (drop i name) = false)
          /\ key = take 4 d ++ lit "-" ++ take 2 (drop 4 d))
  /\ (forall name,
        month_key_of name = None <->
        forall i, ~ twelve_digits (take 12 (drop i name)))
  /\ (forall pre run post,
        Forall (fun c => is_digit c = false) pre ->
        Forall (fun c => is_digit c = true) run ->
        12 <= length run ->
        month_key_of (pre ++ run ++ post)
        = Some (take 4 run ++ lit "-" ++ take 2 (drop 4 run)))
  /\ (forall counts n,
        month_key_of (filename n) = None -> count_note counts n = counts)
  /\ month_key_of (lit "202403151230 My Note") = Some (lit "2024-03")
  /\ month_key_of (lit "no timestamp here") = None
  /\ month_key_of (lit "note 2024031512309 x") = Some (lit "2024-03")
  /\ month_key_of (lit "123456789 x 202499151230") = Some (lit "2024-99")
  /\ countFilesByMonth [Note [] (lit "202403151230 My Note");
                        Note [] (lit "no timestamp here");
                        Note [] (lit "x 202403010000");
                        Note [] (lit "202413010000")]
     = {[ lit "2024-03" := 2%N; lit "2024-13" := 1%N ]}.
Proof.
  split; [|split; [|split; [|split; [|split]]]].
  - intros notes key. unfold countFilesByMonth.
    rewrite foldl_count_note_lookup, lookup_empty. cbn [default].
    destruct (notes_of_key key notes); reflexivity.
  - exact month_key_of_Some.
  - exact month_key_of_None.
  - intros pre run post Hpre Hrun Hlen. unfold month_key_of.
    rewrite (match_digits12_run pre run post Hpre Hrun Hlen).
    unfold slice. cbn [Nat.sub]. rewrite drop_0. f_equal.
    rewrite take_take, skipn_firstn_comm, take_take.
    reflexivity.
  - intros counts n Hn. unfold count_note. rewrite Hn. reflexivity.
  - repeat split; reflexivity.
Qed.

Lemma countFilesByMonth_counts_first_timestamp_witness :
  month_key_of (lit "note " ++ lit "2024031512309" ++ lit " x")
  = Some (lit "2024-03")
  /\ count_note {[ lit "2024-03" := 1%N ]} (Note [] (lit "no timestamp here"))
     = {[ lit "2024-03" := 1%N ]}.
Proof.
  split.
  - apply (proj1 (proj2 (proj2 (proj2 countFilesByMonth_counts_first_timestamp)))
             (lit "note ") (lit "2024031512309") (lit " x")).
    + repeat constructor.
    + repeat constructor.
    + simpl. lia.
  - apply (proj1 (proj2 (proj2 (proj2 (proj2 countFilesByMonth_counts_first_timestamp))))).
    reflexivity.
Defined.

(** ** Table renderer *)

Lemma foldl_append {A} (f : A -> jsstring) (l : list A) : forall init,
  foldl (fun acc x => acc ++ f x) init l = init ++ concat (f <$> l).
Proof.
  induction l as [|x l IH]; intros init; simpl.
  - symmetry. apply app_nil_r.
  - rewrite IH, <- app_assoc. reflexivity.
Qed.

Lemma table_row_data_row counts w year :
  table_row counts w 3 year ++ newline = data_row counts w year.
Proof.
  unfold table_row, data_row.
  rewrite (foldl_append (fun index => lit " " ++ table_cell counts 3 year index ++ lit " |")).
  rewrite <- !app_assoc. reflexivity.
Qed.

Lemma createMonthlyTable_rows counts :
  createMonthlyTable counts
  = table_header (maxYearWidth (table_years counts))
    ++ table_separator (maxYearWidth (table_years counts))
    ++ concat (data_row counts (maxYearWidth (table_years counts)) <$> table_years counts).
Proof.
  unfold createMonthlyTable. cbv zeta.
  change maxMonthWidth with 3.
  set (w := maxYearWidth (table_years counts)).
  rewrite (foldl_append (fun year => table_row counts w 3 year ++ newline)).
  rewrite (list_fmap_ext _ (data_row counts w) (table_years counts))
    by (intros; apply table_row_data_row).
  unfold table_header, table_separator.
  rewrite <- !app_assoc. reflexivity.
Qed.

Lemma str_leb_refl s : str_leb s s = true.
Proof.
  induction s as [|a s IH]; [reflexivity|]. simpl.
  rewrite N.ltb_irrefl, N.eqb_refl. exact IH.
Qed.

#[global] Instance str_le_total : Total str_le.
Proof.
  intros s. induction s as [|a s IH]; intros t; [left; reflexivity|].
  destruct t as [|b t]; [right; reflexivity|].
  unfold str_le in *. simpl.
  destruct (N.ltb_spec a b), (N.ltb_spec b a), (N.eqb_spec a b), (N.eqb_spec b a);
    try lia; auto.
Qed.

#[global] Instance str_le_trans : Transitive str_le.
Proof.
  intros s. induction s as [|a s IH]; intros t u Hst Htu; [reflexivity|].
  destruct t as [|b t]; [discriminate|]. destruct u as [|c u]; [discriminate|].
  unfold str_le in *. simpl in *.
  destruct (N.ltb_spec a b), (N.ltb_spec b c), (N.ltb_spec a c),
    (N.eqb_spec a b), (N.eqb_spec b c), (N.eqb_spec a c);
    try lia; try discriminate; eauto.
Qed.

#[global] Instance str_le_antisymm : AntiSymm (=) str_le.
Proof.
  intros s. induction s as [|a s IH]; intros t Hst Hts.
  - destruct t; [reflexivity | discriminate].
  - destruct t as [|b t]; [discriminate|].
    unfold str_le in *. simpl in *.
    destruct (N.ltb_spec a b), (N.ltb_spec b a), (N.eqb_spec a b), (N.eqb_spec b a);
      try lia; try discriminate.
    subst. f_equal. auto.
Qed.

Lemma elem_of_year_set counts y :
  y ∈ year_set counts <-> exists key, is_Some (counts !! key) /\ y = slice 0 4 key.
Proof.
  unfold year_set, Object_keys.
  rewrite elem_of_list_to_set, list_elem_of_fmap. split.
  - intros (key & -> & Hkey). exists key. split; [|reflexivity].
    apply list_elem_of_fmap in Hkey as ([k v] & -> & Hkv).
    apply elem_of_map_to_list in Hkv. eauto.
  - intros (key & [v Hv] & ->). exists key. split; [reflexivity|].
    apply list_elem_of_fmap. exists (key, v). split; [reflexivity|].
    apply elem_of_map_to_list, Hv.
Qed.

Lemma table_years_Permutation counts :
  table_years counts ≡ₚ elements (year_set counts).
Proof. apply merge_sort_Permutation. Qed.

Lemma elem_of_table_years counts y :
  y ∈ table_years counts <-> exists key, is_Some (counts !! key) /\ y = slice 0 4 key.
Proof.
  rewrite table_years_Permutation, elem_of_elements. apply elem_of_year_set.
Qed.

Lemma table_years_sorted counts : StronglySorted str_le (table_years counts).
Proof. apply StronglySorted_merge_sort; apply _. Qed.

Lemma table_years_NoDup counts : NoDup (table_years counts).
Proof. rewrite table_years_Permutation. apply NoDup_elements. Qed.

(** X3: whatever the sorting algorithm of the engine, the sorted array is
    this one: a sorted arrangement of distinct strings is unique. *)
Lemma table_years_unique counts (years : list jsstring) :
  years ≡ₚ elements (year_set counts) ->
  StronglySorted str_le years ->
  years = table_years counts.
Proof.
  intros Hperm Hsorted.
  apply (StronglySorted_unique str_le); [exact Hsorted | apply table_years_sorted|].
  rewrite Hperm. symmetry. apply table_years_Permutation.
Qed.

Lemma table_years_unique_witness :
  [lit "2023"; lit "2024"]
  = table_years {[ lit "2024-12" := 5%N; lit "2023-01" := 2%N ]}.
Proof.
  apply table_years_unique.
  - vm_compute. apply perm_swap.
  - repeat constructor.
Defined.

Lemma table_cell_absent counts y i :
  counts !! cell_key y i = None -> table_cell counts 3 y i = lit "0  ".
Proof. unfold table_cell. intros ->. reflexivity. Qed.

Lemma table_cell_present counts y i c :
  counts !! cell_key y i = Some c ->
  table_cell counts 3 y i = padEnd (String_of_N c) 3.
Proof. unfold table_cell. intros ->. reflexivity. Qed.

Lemma cell_keys_of_year y :
  cell_key y <$> seq 0 12 = (fun mm => y ++ lit "-" ++ mm) <$> month_numbers.
Proof. reflexivity. Qed.

(** C6: the table is the header row of the twelve month abbreviations, the
    separator row and one data row for every year that is the first four
    units of a key, each year once, in ascending order of the strings, and no
    other row; a cell whose key is absent from the mapping shows 0. *)
Theorem createMonthlyTable_rows_per_year :
  (forall counts,
     createMonthlyTable counts
     = table_header (maxYearWidth (table_years counts))
       ++ table_separator (maxYearWidth (table_years counts))
       ++ concat (data_row counts (maxYearWidth (table_years counts))
                    <$> table_years counts))
  /\ (forall counts, StronglySorted str_le (table_years counts))
  /\ (forall counts, NoDup (table_years counts))
  /\ (forall counts y,
        y ∈ table_years counts <->
        exists key, is_Some (counts !! key) /\ y = slice 0 4 key)
  /\ (forall counts, length (table_years counts) = size (year_set counts))
  /\ (forall y, cell_key y <$> seq 0 12
                = (fun mm => y ++ lit "-" ++ mm) <$> month_numbers)
  /\ (forall counts y i,
        counts !! cell_key y i = None -> table_cell counts 3 y i = lit "0  ")
  /\ (forall counts y i c,
        counts !! cell_key y i = Some c ->
        table_cell counts 3 y i = padEnd (String_of_N c) 3)
  /\ (let counts : gmap jsstring N := {[ lit "2023-01" := 2%N; lit "2024-12" := 5%N ]} in
      table_years counts = [lit "2023"; lit "2024"]
      /\ table_cell counts 3 (lit "2024") 11 = lit "5  "
      /\ table_cell counts 3 (lit "2023") 11 = lit "0  "
      /\ createMonthlyTable counts
         = lit "| Year | Jan | Feb | Mar | Apr | May | Jun | Jul | Aug | Sep | Oct | Nov | Dec |" ++ newline
           ++ lit "|------|-----|-----|-----|-----|-----|-----|-----|-----|-----|-----|-----|-----|" ++ newline
           ++ lit "| 2023 | 2   | 0   | 0   | 0   | 0   | 0   | 0   | 0   | 0   | 0   | 0   | 0   |" ++ newline
           ++ lit "| 2024 | 0   | 0   | 0   | 0   | 0   | 0   | 0   | 0   | 0   | 0   | 0   | 5   |" ++ newline)
  /\ table_years {[ lit "2021-07" := 1%N; lit "2024-02" := 3%N ]} = [lit "2021"; lit "2024"].
Proof.
  split; [exact createMonthlyTable_rows|].
  split; [exact table_years_sorted|].
  split; [exact table_years_NoDup|].
  split; [exact elem_of_table_years|].
  split; [intros counts; rewrite table_years_Permutation; reflexivity|].
  split; [exact cell_keys_of_year|].
  split; [exact table_cell_absent|].
  split; [exact table_cell_present|].
  split; [|vm_compute; reflexivity].
  cbv zeta. repeat split; vm_compute; reflexivity.
Qed.

Lemma createMonthlyTable_rows_per_year_witness :
  let counts : gmap jsstring N := {[ lit "2023-01" := 2%N; lit "2024-12" := 5%N ]} in
  counts !! cell_key (lit "2023") 11 = None
  /\ table_cell counts 3 (lit "2023") 11 = lit "0  "
  /\ counts !! cell_key (lit "2024") 11 = Some 5%N
  /\ table_cell counts 3 (lit "2024") 11 = padEnd (String_of_N 5) 3.
Proof.
  intros counts.
  assert (H0 : counts !! cell_key (lit "2023") 11 = None) by (vm_compute; reflexivity).
  assert (H5 : counts !! cell_key (lit "2024") 11 = Some 5%N) by (vm_compute; reflexivity).
  split; [exact H0|]. split.
  - exact (proj1 (proj2 (proj2 (proj2 (proj2 (proj2 (proj2
             createMonthlyTable_rows_per_year)))))) counts (lit "2023") 11 H0).
  - split; [exact H5|].
    exact (proj1 (proj2 (proj2 (proj2 (proj2 (proj2 (proj2 (proj2
             createMonthlyTable_rows_per_year))))))) counts (lit "2024") 11 5%N H5).
Defined.

(** C10: for the empty mapping the table is the header row, with the year
    column four wide, and the separator row, and nothing else. *)
Theorem createMonthlyTable_empty :
  createMonthlyTable ∅
  = lit "| Year | Jan | Feb | Mar | Apr | May | Jun | Jul | Aug | Sep | Oct | Nov | Dec |" ++ newline
    ++ lit "|------|-----|-----|-----|-----|-----|-----|-----|-----|-----|-----|-----|-----|" ++ newline
  /\ table_years ∅ = []
  /\ maxYearWidth (table_years ∅) = length (lit "Year")
  /\ createMonthlyTable (countFilesByMonth []) = createMonthlyTable ∅
  /\ forall notes,
       Forall (fun n => month_key_of (filename n) = None) notes ->
       createMonthlyTable (countFilesByMonth notes) = createMonthlyTable ∅.
Proof.
  repeat split; try (vm_compute; reflexivity).
  intros notes Hnone. f_equal. unfold countFilesByMonth.
  generalize (∅ : gmap jsstring N).
  induction Hnone as [|n notes Hn _ IH]; intros counts; [reflexivity|].
  cbn [foldl]. unfold count_note at 2. rewrite Hn. apply IH.
Qed.

Lemma createMonthlyTable_empty_witness :
  let notes := [Note (lit "a b") (lit "no timestamp here"); Note [] (lit "20240315")] in
  Forall (fun n => month_key_of (filename n) = None) notes
  /\ createMonthlyTable (countFilesByMonth notes) = createMonthlyTable ∅.
Proof.
  intros notes.
  assert (H : Forall (fun n => month_key_of (filename n) = None) notes)
    by (repeat constructor).
  split; [exact H|].
  exact (proj2 (proj2 (proj2 (proj2 createMonthlyTable_empty))) notes H).
Defined.



Lemma digit_not_dash c : is_digit c = true -> c <> 45%N.
Proof. intros H ->. discriminate. Qed.





(** The row of every year of the table is in the string the renderer
    returns, at the place of the year among the sorted years. *)
Lemma createMonthlyTable_row_rendered counts year :
  year ∈ table_years counts -> row_rendered counts year.
Proof.
  intros Hy. apply list_elem_of_split in Hy as (before & after & Hyears).
  exists before, after. split; [exact Hyears|].
  rewrite createMonthlyTable_rows.
  set (w := maxYearWidth (table_years counts)).
  do 2 f_equal. rewrite Hyears, fmap_app, concat_app. reflexivity.
Qed.

(** The cell of the column [i] in the row of a year. *)
Lemma data_row_cell counts w year i :
  i < 12 ->
  data_row counts w year
  = lit "| " ++ padEnd year w ++ lit " |"
    ++ row_cells counts year 0 i
    ++ lit " " ++ table_cell counts 3 year i ++ lit " |"
    ++ row_cells counts year (S i) (11 - i)
    ++ newline.
Proof.
  intros Hi. unfold data_row, row_cells.
  replace 12 with (i + S (11 - i)) at 1 by lia.
  rewrite seq_app, fmap_app, concat_app. cbn [seq fmap list_fmap concat Nat.add].
  rewrite <- !app_assoc. reflexivity.
Qed.



(** *** Month column width *)

(** The script pads every month cell to the width of the month
    abbreviations: [maxCountWidth] is computed and not used. *)
Lemma createMonthlyTable_month_width counts :
  createMonthlyTable counts = table_of_width 3 counts.
Proof.
  rewrite createMonthlyTable_rows. unfold table_of_width, table_header, table_separator.
  cbv zeta. rewrite <- !app_assoc. reflexivity.
Qed.

Lemma length_padEnd s w : length (padEnd s w) = max (length s) w.
Proof. unfold padEnd, repeat_unit. rewrite length_app, length_replicate. lia. Qed.

Lemma table_cell_length counts mw y i :
  length (table_cell counts mw y i)
  = max (length (String_of_N (default 0%N (counts !! cell_key y i)))) mw.
Proof. apply length_padEnd. Qed.

(** X2: where no count is more than three digits long, the script and the
    spec give the same table. *)
Lemma createMonthlyTable_narrow_counts counts :
  (forall key c, counts !! key = Some c -> length (String_of_N c) <= 3) ->
  createMonthlyTable counts = createMonthlyTable_by_spec counts.
Proof.
  intros Hnarrow. rewrite createMonthlyTable_month_width.
  unfold createMonthlyTable_by_spec. f_equal.
  unfold month_width_by_spec. change maxMonthWidth with 3.
  assert (maxCountWidth counts <= 3); [|lia].
  unfold maxCountWidth.
  set (widths := ((fun count => length (String_of_N count)) <$> Object_values counts) ++ [1]).
  assert (Hin : max_list widths ∈ widths).
  { apply max_list_elem_of. unfold widths. destruct (_ <$> _); discriminate. }
  apply elem_of_app in Hin as [Hin|Hin].
  - apply list_elem_of_fmap in Hin as (c & -> & Hc).
    unfold Object_values in Hc.
    apply list_elem_of_fmap in Hc as ([k c'] & -> & Hkc).
    apply elem_of_map_to_list in Hkc. eapply Hnarrow, Hkc.
  - apply list_elem_of_singleton in Hin. lia.
Qed.

Lemma createMonthlyTable_narrow_counts_witness :
  createMonthlyTable {[ lit "2023-01" := 2%N; lit "2024-12" := 999%N ]}
  = createMonthlyTable_by_spec {[ lit "2023-01" := 2%N; lit "2024-12" := 999%N ]}.
Proof.
  apply createMonthlyTable_narrow_counts. intros key c H.
  apply lookup_insert_Some in H as [[_ <-]|[_ H]]; [simpl; lia|].
  apply lookup_singleton_Some in H as [_ <-]. simpl. lia.
Defined.

(** C1, on the code: with a count of four digits the script widens the cell
    of that count only; the other cells of the row, the header and the
    separator stay three wide, where the spec makes every month column four
    wide. *)
Theorem createMonthlyTable_wide_count_one_cell :
  countFilesByMonth (replicate 1000 (Note [] (lit "202401010900 a"))) = thousand_counts
  /\ createMonthlyTable thousand_counts
     = lit "| Year | Jan | Feb | Mar | Apr | May | Jun | Jul | Aug | Sep | Oct | Nov | Dec |" ++ newline
       ++ lit "|------|-----|-----|-----|-----|-----|-----|-----|-----|-----|-----|-----|-----|" ++ newline
       ++ lit "| 2024 | 1000 | 0   | 0   | 0   | 0   | 0   | 0   | 0   | 0   | 0   | 0   | 0   |" ++ newline
  /\ createMonthlyTable_by_spec thousand_counts
     = lit "| Year | Jan  | Feb  | Mar  | Apr  | May  | Jun  | Jul  | Aug  | Sep  | Oct  | Nov  | Dec  |" ++ newline
       ++ lit "|------|------|------|------|------|------|------|------|------|------|------|------|------|" ++ newline
       ++ lit "| 2024 | 1000 | 0    | 0    | 0    | 0    | 0    | 0    | 0    | 0    | 0    | 0    | 0    |" ++ newline
  /\ month_width_by_spec thousand_counts = 4
  /\ length (table_cell thousand_counts 3 (lit "2024") 0) = 4
  /\ length (table_cell thousand_counts 3 (lit "2024") 1) = 3.
Proof. repeat split; vm_compute; reflexivity. Qed.

(** ** Report composer *)

(** C2, as stated, fails: the document of the script does not start with the
    opening [---]; its first unit is a line break. *)
Lemma body_not_persisted_document :
  body (lit "Stats") example_now example_notes
  <> persisted_document (fields_of (lit "Stats") example_now example_notes).
Proof. vm_compute. discriminate. Qed.

(** C2, amended: the document is a line break, the persisted document shape
    of the spec with the values of the run, and a line break after the
    table; it is what the run hands over as file content and clipboard
    contents. *)
Theorem body_persisted_document_between_line_breaks :
  (forall targetTitle now notes,
     body targetTitle now notes
     = newline ++ persisted_document (fields_of targetTitle now notes) ++ newline)
  /\ (forall targetTitle now notes,
        run (Some targetTitle) now notes
        = Created (body targetTitle now notes)
            {| out_filename := timestampString now ++ lit " " ++ targetTitle;
               out_content := body targetTitle now notes |})
  /\ body (lit "Stats") example_now example_notes
     = newline
       ++ lit "---" ++ newline
       ++ lit "UUID:     " ++ guillemet ++ lit "[[202410121405]]" ++ newline
       ++ lit "cdate:    12-10-2024 02:05 PM " ++ newline
       ++ lit "tags:     #statistics" ++ newline
       ++ lit "---" ++ newline
       ++ lit "# Stats" ++ newline
       ++ newline
       ++ lit "Zettelkasten Stats" ++ newline
       ++ stars ++ newline
       ++ lit "Total Number of Notes in Zettelkasten: 3" ++ newline
       ++ lit "Total Word Count: 9" ++ newline
       ++ lit "Average Word Count: 3.00" ++ newline
       ++ lit "Total Link Count: 1" ++ newline
       ++ lit "Average Link Count: 0.33" ++ newline
       ++ lit "Total Notes in Proofing Oven: 1" ++ newline
       ++ newline
       ++ lit "Monthly Breakdown:" ++ newline
       ++ lit "| Year | Jan | Feb | Mar | Apr | May | Jun | Jul | Aug | Sep | Oct | Nov | Dec |" ++ newline
       ++ lit "|------|-----|-----|-----|-----|-----|-----|-----|-----|-----|-----|-----|-----|" ++ newline
       ++ lit "| 2024 | 2   | 0   | 0   | 0   | 0   | 0   | 0   | 0   | 0   | 0   | 0   | 0   |" ++ newline
       ++ newline.
Proof.
  split; [|split; [reflexivity | vm_compute; reflexivity]].
  intros targetTitle now notes. unfold body, persisted_document, fields_of.
  cbn [fmap list_fmap concat f_uuid f_date f_time f_title f_notes f_words
       f_average_words f_links f_average_links f_proofing f_table].
  rewrite <- !app_assoc. reflexivity.
Qed.

(** *** The identifier of the created note *)

Lemma forallb_below (P : N -> bool) k :
  forallb (fun i => P (N.of_nat i)) (seq 0 k) = true ->
  forall n, (n < N.of_nat k)%N -> P n = true.
Proof.
  intros H n Hn. rewrite forallb_forall in H.
  specialize (H (N.to_nat n)). rewrite N2Nat.id in H.
  apply H, in_seq. lia.
Qed.

Lemma digits_of_forallb s :
  forallb is_digit s = true -> Forall (fun c => is_digit c = true) s.
Proof.
  rewrite forallb_forall, Forall_forall. intros H c Hc.
  apply H, list_elem_of_In, Hc.
Qed.

Lemma two_digits_shape n :
  (n < 100)%N ->
  length (two_digits n) = 2 /\ Forall (fun c => is_digit c = true) (two_digits n).
Proof.
  intros Hn.
  assert (H : two_digits_ok n = true).
  { apply (forallb_below two_digits_ok 100); [vm_compute; reflexivity | exact Hn]. }
  apply andb_true_iff in H as [Hl Hd]. split.
  - apply Nat.eqb_eq, Hl.
  - apply digits_of_forallb, Hd.
Qed.

Lemma year_shape y :
  (1000 <= y <= 9999)%Z ->
  length (String_of_Z y) = 4 /\ Forall (fun c => is_digit c = true) (String_of_Z y).
Proof.
  intros Hy.
  assert (H : year_ok (Z.to_N y) = true).
  { apply (forallb_below year_ok (N.to_nat 10000)); [vm_compute; reflexivity|].
    rewrite N2Nat.id. lia. }
  unfold year_ok in H. rewrite Z2N.id in H by lia.
  apply orb_true_iff in H as [H|H]; [apply N.ltb_lt in H; lia|].
  apply andb_true_iff in H as [Hl Hd]. split.
  - apply Nat.eqb_eq, Hl.
  - apply digits_of_forallb, Hd.
Qed.

Lemma timestampString_parts now :
  timestampString now
  = String_of_Z (getFullYear now)
    ++ two_digits (getMonth now + 1) ++ two_digits (getDate now)
    ++ two_digits (getHours now) ++ two_digits (getMinutes now).
Proof. reflexivity. Qed.

(** X1: the identifier of a note made at a valid moment is twelve digits,
    and the monthly classifier counts the note under the year and month of
    that moment. *)
Theorem created_note_counted_in_its_month now (targetTitle : jsstring) :
  valid_date now ->
  twelve_digits (timestampString now)
  /\ month_key_of (targetFilename now targetTitle)
     = Some (String_of_Z (getFullYear now) ++ lit "-" ++ two_digits (getMonth now + 1)).
Proof.
  intros (Hy & Hm & Hd & Hh & Hmi).
  destruct (year_shape _ Hy) as [Hyl Hyd].
  destruct (two_digits_shape (getMonth now + 1) ltac:(lia)) as [Hml Hmd].
  destruct (two_digits_shape (getDate now) ltac:(lia)) as [Hdl Hdd].
  destruct (two_digits_shape (getHours now) ltac:(lia)) as [Hhl Hhd].
  destruct (two_digits_shape (getMinutes now) ltac:(lia)) as [Hmil Hmid].
  assert (Hts : twelve_digits (timestampString now)).
  { rewrite timestampString_parts. split.
    - rewrite !length_app. lia.
    - repeat (apply Forall_app; split); assumption. }
  split; [exact Hts|]. destruct Hts as [Hlen Hdig].
  unfold targetFilename, month_key_of.
  pose proof (match_digits12_run [] (timestampString now) (lit " " ++ targetTitle)
                ltac:(constructor) Hdig ltac:(lia)) as Hrun.
  rewrite app_nil_l in Hrun. rewrite Hrun.
  rewrite firstn_all2 by lia.
  unfold slice. cbn [Nat.sub]. rewrite drop_0, timestampString_parts.
  rewrite take_app_length' by (symmetry; exact Hyl).
  rewrite drop_app_length' by (symmetry; exact Hyl).
  rewrite take_app_length' by (symmetry; exact Hml). reflexivity.
Qed.

Lemma created_note_counted_in_its_month_witness :
  valid_date example_now
  /\ twelve_digits (timestampString example_now)
  /\ month_key_of (targetFilename example_now (lit "Stats"))
     = Some (lit "2024-10").
Proof.
  assert (Hv : valid_date example_now).
  { unfold valid_date, example_now. cbn. repeat split; lia. }
  split; [exact Hv|].
  exact (created_note_counted_in_its_month example_now (lit "Stats") Hv).
Defined.

(** ** Averages: the binary64 division *)

Section Binary64.
Local Open Scope Z_scope.

Lemma digits2_pos_bounds p :
  2 ^ (Zpos (digits2_pos p) - 1) <= Zpos p < 2 ^ Zpos (digits2_pos p).
Proof.
  induction p as [p IH|p IH|]; cbn [digits2_pos].
  - rewrite Pos2Z.inj_succ, Z.pow_succ_r by lia.
    replace (Z.succ (Zpos (digits2_pos p)) - 1) with (Z.succ (Zpos (digits2_pos p) - 1)) by lia.
    rewrite Z.pow_succ_r by lia. lia.
  - rewrite Pos2Z.inj_succ, Z.pow_succ_r by lia.
    replace (Z.succ (Zpos (digits2_pos p)) - 1) with (Z.succ (Zpos (digits2_pos p) - 1)) by lia.
    rewrite Z.pow_succ_r by lia. lia.
  - simpl. lia.
Qed.

Lemma Zdigits2_le m k : 0 <= m < 2 ^ k -> 0 <= k -> 0 <= Zdigits2 m <= k.
Proof.
  intros [Hm Hk] Hk0. destruct m as [|p|p]; [simpl; lia| |lia].
  cbn [Zdigits2]. destruct (digits2_pos_bounds p) as [Hlo _].
  split; [lia|].
  destruct (Z_lt_le_dec k (Zpos (digits2_pos p))) as [Hlt|]; [|lia].
  assert (2 ^ k <= 2 ^ (Zpos (digits2_pos p) - 1)) by (apply Z.pow_le_mono_r; lia).
  lia.
Qed.

Lemma digits2_pos_unique p d :
  2 ^ (d - 1) <= Zpos p < 2 ^ d -> 0 < d -> Zpos (digits2_pos p) = d.
Proof.
  intros [Hlo Hhi] Hd. destruct (digits2_pos_bounds p) as [Hlo' Hhi'].
  destruct (Z.lt_trichotomy (Zpos (digits2_pos p)) d) as [Hlt|[Heq|Hgt]]; [|exact Heq|].
  - assert (2 ^ Zpos (digits2_pos p) <= 2 ^ (d - 1)) by (apply Z.pow_le_mono_r; lia). lia.
  - assert (2 ^ d <= 2 ^ (Zpos (digits2_pos p) - 1)) by (apply Z.pow_le_mono_r; lia). lia.
Qed.

Lemma shr_1_m mrs : 0 <= shr_m mrs -> shr_m (shr_1 mrs) = shr_m mrs / 2.
Proof.
  destruct mrs as [m r s]. cbn [shr_m]. intros Hm. unfold shr_1.
  destruct m as [|[p|p|]|p]; cbn [shr_m]; try reflexivity; try lia.
  - rewrite Pos2Z.inj_xI. apply Z.div_unique with 1; lia.
  - rewrite Pos2Z.inj_xO. apply Z.div_unique with 0; lia.
Qed.

Lemma pow2_xO p : 2 ^ Zpos p~0 = 2 ^ Zpos p * 2 ^ Zpos p.
Proof. rewrite <- Z.pow_add_r by lia. f_equal. lia. Qed.

Lemma pow2_xI p : 2 ^ Zpos p~1 = 2 * (2 ^ Zpos p * 2 ^ Zpos p).
Proof.
  rewrite <- Z.pow_add_r, <- Z.pow_succ_r by lia. f_equal. lia.
Qed.

Lemma iter_shr_1_m p : forall mrs,
  0 <= shr_m mrs -> shr_m (SpecFloat.iter_pos shr_1 p mrs) = shr_m mrs / 2 ^ Zpos p.
Proof.
  induction p as [p IH|p IH|]; intros mrs Hm; cbn [SpecFloat.iter_pos].
  - assert (H1 : 0 <= shr_m (shr_1 mrs)) by (rewrite shr_1_m by lia; apply Z.div_pos; lia).
    assert (H2 : 0 <= shr_m (SpecFloat.iter_pos shr_1 p (shr_1 mrs)))
      by (rewrite IH by lia; apply Z.div_pos; lia).
    rewrite IH, IH, shr_1_m by lia.
    rewrite !Z.div_div by lia. rewrite pow2_xI. reflexivity.
  - assert (H2 : 0 <= shr_m (SpecFloat.iter_pos shr_1 p mrs))
      by (rewrite IH by lia; apply Z.div_pos; lia).
    rewrite IH, IH by lia. rewrite Z.div_div by lia. rewrite pow2_xO. reflexivity.
  - rewrite shr_1_m by lia. reflexivity.
Qed.

Lemma shr_record_of_loc_m m l : shr_m (shr_record_of_loc m l) = m.
Proof. destruct l as [|[| |]]; reflexivity. Qed.

(** The shift before rounding keeps the mantissa non-negative and no
    larger, and moves the exponent up to [fexp] at most. *)
Lemma shr_fexp_bounds m e l :
  0 <= m ->
  0 <= shr_m (fst (shr_fexp prec emax m e l)) <= m
  /\ snd (shr_fexp prec emax m e l)
     = Z.max e (fexp prec emax (Zdigits2 m + e)).
Proof.
  intros Hm. unfold shr_fexp, shr.
  destruct (fexp prec emax (Zdigits2 m + e) - e) as [|p|p] eqn:Hn; cbn [fst snd].
  - rewrite shr_record_of_loc_m. lia.
  - rewrite iter_shr_1_m by (rewrite shr_record_of_loc_m; exact Hm).
    rewrite shr_record_of_loc_m. split; [|lia]. split.
    + apply Z.div_pos; lia.
    + apply Z.div_le_upper_bound; [lia|].
      assert (1 <= 2 ^ Zpos p) by (apply Z.pow_le_mono_r with (b := 0); lia). nia.
  - rewrite shr_record_of_loc_m. lia.
Qed.

Lemma round_nearest_even_bounds m l :
  m <= round_nearest_even m l <= m + 1.
Proof.
  unfold round_nearest_even. destruct l as [|[| |]]; try lia.
  destruct (Z.even m); lia.
Qed.

Lemma fexp_le x b : x <= b + 53 -> -1074 <= b -> fexp prec emax x <= b.
Proof. unfold fexp, SpecFloat.emin, prec, emax. lia. Qed.

(** Rounding a quotient below 2^54 with a negative exponent gives zero or
    a finite number below 2^56. *)
Lemma binary_round_aux_quotient m e l :
  0 <= m < 2 ^ 54 -> e <= -1 ->
  binary_round_aux prec emax false m e l = S754_zero false
  \/ exists m' e',
       binary_round_aux prec emax false m e l = S754_finite false m' e'
       /\ Zpos m' <= 2 ^ 54 /\ e' <= 2.
Proof.
  intros Hm He. unfold binary_round_aux.
  pose proof (shr_fexp_bounds m e l ltac:(lia)) as [Hm1 He1].
  destruct (shr_fexp prec emax m e l) as [mrs1 e1]. cbn [fst snd] in Hm1, He1.
  set (m2 := round_nearest_even (shr_m mrs1) (loc_of_shr_record mrs1)).
  pose proof (round_nearest_even_bounds (shr_m mrs1) (loc_of_shr_record mrs1)) as Hm2.
  fold m2 in Hm2.
  pose proof (shr_fexp_bounds m2 e1 loc_Exact ltac:(lia)) as [Hm3 He3].
  destruct (shr_fexp prec emax m2 e1 loc_Exact) as [mrs3 e3]. cbn [fst snd] in Hm3, He3.
  assert (Hd1 : 0 <= Zdigits2 m <= 54) by (apply Zdigits2_le; lia).
  assert (He1' : e1 <= 0).
  { rewrite He1. apply Z.max_lub; [lia|]. apply fexp_le; lia. }
  assert (Hd2 : 0 <= Zdigits2 m2 <= 55).
  { apply Zdigits2_le; [|lia]. split; [lia|].
    change (2 ^ 55) with (2 * 2 ^ 54). lia. }
  assert (He3' : e3 <= 2).
  { rewrite He3. apply Z.max_lub; [lia|]. apply fexp_le; lia. }
  destruct (shr_m mrs3) as [|m3|m3] eqn:Hm3eq.
  - left. reflexivity.
  - right. exists m3, e3.
    replace (e3 <=? emax - prec) with true
      by (symmetry; apply Z.leb_le; unfold emax, prec; lia).
    split; [reflexivity|]. split; [lia|exact He3'].
  - lia.
Qed.
Lemma iter_xO_pow2 p k : Zpos (Pos.iter xO p k) = Zpos p * 2 ^ Zpos k.
Proof.
  induction k as [|k IH] using Pos.peano_ind.
  - simpl. lia.
  - rewrite Pos.iter_succ, Pos2Z.inj_xO, IH, Pos2Z.inj_succ, Z.pow_succ_r by lia. lia.
Qed.

Lemma shl_align_spec mx ex ex' :
  ex' <= ex ->
  Zpos (fst (shl_align mx ex ex')) = Zpos mx * 2 ^ (ex - ex')
  /\ snd (shl_align mx ex ex') = ex'.
Proof.
  intros Hle. unfold shl_align. destruct (ex' - ex) as [|d|d] eqn:Hd; cbn [fst snd].
  - replace (ex - ex') with 0 by lia. lia.
  - lia.
  - rewrite iter_xO_pow2. replace (ex - ex') with (Zpos d) by lia. lia.
Qed.

(** A mantissa of 53 bits with an exponent in range is kept as it is. *)
Lemma binary_round_aux_normal m e :
  Zpos (digits2_pos m) = 53 -> -1021 <= e <= 971 ->
  binary_round_aux prec emax false (Zpos m) e loc_Exact = S754_finite false m e.
Proof.
  intros Hd He. unfold binary_round_aux, shr_fexp. cbn [Zdigits2]. rewrite Hd.
  replace (fexp prec emax (53 + e) - e) with 0
    by (unfold fexp, SpecFloat.emin, prec, emax; lia).
  cbn. rewrite Hd.
  replace (fexp prec emax (53 + e) - e) with 0
    by (unfold fexp, SpecFloat.emin, prec, emax; lia).
  cbn. replace (e <=? emax - prec) with true
    by (symmetry; apply Z.leb_le; unfold emax, prec; lia).
  reflexivity.
Qed.

(** The number of a positive count below 2^53: the count itself, with a
    mantissa of 53 bits. *)
Lemma number_of_nat_normal a :
  (0 < a)%nat -> Z.of_nat a < 2 ^ 53 ->
  exists m e,
    number_of_nat a = S754_finite false m e
    /\ 2 ^ 52 <= Zpos m < 2 ^ 53 /\ -52 <= e <= 0
    /\ Zpos m = Z.of_nat a * 2 ^ (- e).
Proof.
  intros Ha Hlt. unfold number_of_nat, binary_normalize.
  destruct (Z.of_nat a) as [|p|p] eqn:Hp; [lia| |lia].
  unfold binary_round.
  pose proof (digits2_pos_bounds p) as [Hlo Hhi].
  assert (Hd : 0 <= Zdigits2 (Zpos p) <= 53) by (apply Zdigits2_le; lia).
  cbn [Zdigits2] in Hd.
  set (d := Zpos (digits2_pos p)) in *.
  assert (Hf : fexp prec emax (d + 0) = d - 53)
    by (unfold fexp, SpecFloat.emin, prec, emax; lia).
  rewrite Hf.
  pose proof (shl_align_spec p 0 (d - 53) ltac:(lia)) as [Hmz Hez].
  destruct (shl_align p 0 (d - 53)) as [mz ez]. cbn [fst snd] in Hmz, Hez. subst ez.
  replace (0 - (d - 53)) with (53 - d) in Hmz by lia.
  assert (Hpow : 2 ^ 53 = 2 ^ d * 2 ^ (53 - d))
    by (rewrite <- Z.pow_add_r by lia; f_equal; lia).
  assert (Hpow' : 2 ^ 52 = 2 ^ (d - 1) * 2 ^ (53 - d))
    by (rewrite <- Z.pow_add_r by lia; f_equal; lia).
  assert (Hpos : 0 < 2 ^ (53 - d)) by (apply Z.pow_pos_nonneg; lia).
  assert (Hrange : 2 ^ 52 <= Zpos mz < 2 ^ 53) by (rewrite Hmz, Hpow, Hpow'; nia).
  exists mz, (d - 53). split.
  - apply binary_round_aux_normal; [|lia].
    apply digits2_pos_unique; [|lia]. exact Hrange.
  - split; [exact Hrange|]. split; [lia|].
    rewrite Hmz. f_equal. f_equal. lia.
Qed.
(** The division of two numbers with mantissas of 53 bits: the quotient of
    the mantissas, the dividend shifted by 53 bits, is rounded. *)
Lemma SFdiv_normal ma ea mb eb :
  2 ^ 52 <= Zpos ma < 2 ^ 53 -> 2 ^ 52 <= Zpos mb < 2 ^ 53 ->
  -52 <= ea <= 0 -> -52 <= eb <= 0 ->
  SFdiv prec emax (S754_finite false ma ea) (S754_finite false mb eb)
  = binary_round_aux prec emax false
      (Zpos ma * 2 ^ 53 / Zpos mb) (ea - eb - 53)
      (new_location (Zpos mb) (Zpos ma * 2 ^ 53 mod Zpos mb)).
Proof.
  intros Hma Hmb Hea Heb. unfold SFdiv, SFdiv_core_binary. cbn [Zdigits2 xorb].
  rewrite (digits2_pos_unique ma 53), (digits2_pos_unique mb 53) by (simpl; lia).
  replace (Z.min (fexp prec emax (53 + ea - (53 + eb))) (ea - eb))
    with (ea - eb - 53) by (unfold fexp, SpecFloat.emin, prec, emax; lia).
  replace (ea - eb - (ea - eb - 53)) with 53 by lia.
  rewrite Z.shiftl_mul_pow2 by lia.
  unfold Z.div, Z.modulo.
  destruct (Z.div_eucl (Zpos ma * 2 ^ 53) (Zpos mb)) as [q r]. reflexivity.
Qed.

(** The quotient of two counts below 2^53 is zero or a finite positive
    number below 2^56: never [NaN], never infinite, and far below 1e21. *)
Lemma average_quotient_bounded (total count : nat) :
  (0 < count)%nat -> Z.of_nat total < 2 ^ 53 -> Z.of_nat count < 2 ^ 53 ->
  SFdiv prec emax (number_of_nat total) (number_of_nat count) = S754_zero false
  \/ exists m e,
       SFdiv prec emax (number_of_nat total) (number_of_nat count)
       = S754_finite false m e
       /\ Zpos m <= 2 ^ 54 /\ e <= 2.
Proof.
  intros Hcount Htotal Hc.
  destruct (number_of_nat_normal count Hcount Hc) as (mb & eb & -> & Hmb & Heb & _).
  destruct total as [|total'].
  - left. reflexivity.
  - destruct (number_of_nat_normal (S total') ltac:(lia) Htotal)
      as (ma & ea & -> & Hma & Hea & _).
    rewrite SFdiv_normal by assumption.
    apply binary_round_aux_quotient; [|lia]. split.
    + apply Z.div_pos; lia.
    + apply Z.div_lt_upper_bound; [lia|].
      change (2 ^ 54) with (2 * 2 ^ 53). nia.
Qed.
Lemma average_quotient_fixed_notation (total count : nat) :
  (0 < count)%nat -> Z.of_nat total < 2 ^ 53 -> Z.of_nat count < 2 ^ 53 ->
  fixed_notation (SFdiv prec emax (number_of_nat total) (number_of_nat count)).
Proof.
  intros Hcount Htotal Hc.
  destruct (average_quotient_bounded total count Hcount Htotal Hc)
    as [->|(m & e & -> & Hm & He)]; [exact I|].
  unfold fixed_notation.
  assert (H1 : 1 <= 2 ^ Z.max (- e) 0) by (apply Z.pow_le_mono_r with (b := 0); lia).
  assert (H2 : 2 ^ Z.max e 0 <= 2 ^ 2) by (apply Z.pow_le_mono_r; lia).
  assert (H3 : 0 < 2 ^ Z.max e 0) by (apply Z.pow_pos_nonneg; lia).
  apply Z.le_lt_trans with (2 ^ 54 * 2 ^ 2); [|].
  - apply Z.mul_le_mono_nonneg; lia.
  - apply Z.lt_le_trans with (10 ^ 21 * 1); [reflexivity|].
    apply Z.mul_le_mono_nonneg_l; [|exact H1]. apply Z.pow_nonneg. lia.
Qed.

Lemma shr_fexp_exact m e l :
  0 <= m ->
  snd (shr_fexp prec emax m e l) = Z.max e (fexp prec emax (Zdigits2 m + e))
  /\ shr_m (fst (shr_fexp prec emax m e l))
     = m / 2 ^ (Z.max e (fexp prec emax (Zdigits2 m + e)) - e).
Proof.
  intros Hm. unfold shr_fexp, shr.
  destruct (fexp prec emax (Zdigits2 m + e) - e) as [|p|p] eqn:Hn; cbn [fst snd].
  - rewrite shr_record_of_loc_m. split; [lia|].
    replace (Z.max e (fexp prec emax (Zdigits2 m + e)) - e) with 0 by lia.
    rewrite Z.pow_0_r, Z.div_1_r. reflexivity.
  - rewrite iter_shr_1_m by (rewrite shr_record_of_loc_m; exact Hm).
    rewrite shr_record_of_loc_m. split; [lia|]. f_equal. f_equal. lia.
  - rewrite shr_record_of_loc_m. split; [lia|].
    replace (Z.max e (fexp prec emax (Zdigits2 m + e)) - e) with 0 by lia.
    rewrite Z.pow_0_r, Z.div_1_r. reflexivity.
Qed.

Lemma Zdigits2_53_54 m :
  2 ^ 52 <= m < 2 ^ 54 ->
  (m < 2 ^ 53 /\ Zdigits2 m = 53) \/ (2 ^ 53 <= m /\ Zdigits2 m = 54).
Proof.
  intros Hm. destruct m as [|p|p]; try lia. cbn [Zdigits2].
  destruct (Z_lt_le_dec (Zpos p) (2 ^ 53)) as [Hlt|Hge].
  - left. split; [exact Hlt|]. apply digits2_pos_unique; simpl; lia.
  - right. split; [exact Hge|]. apply digits2_pos_unique; simpl; lia.
Qed.

(** Rounding a mantissa of 53 or 54 bits: in units of [2 ^ e], the result
    is the mantissa with its last [t] bits dropped ([t] is 0 or 1), or the
    next such number. *)
Lemma binary_round_aux_near m e l :
  2 ^ 52 <= m < 2 ^ 54 -> -1000 <= e <= -1 ->
  exists m' e' t m2,
    binary_round_aux prec emax false m e l = S754_finite false m' e'
    /\ (t = 0 \/ t = 1) /\ e <= e' <= e + 2
    /\ 2 ^ 52 <= m / 2 ^ t /\ m / 2 ^ t <= m2 <= m / 2 ^ t + 1
    /\ Zpos m' * 2 ^ (e' - e) = m2 * 2 ^ t.
Proof.
  intros Hm He. unfold binary_round_aux.
  pose proof (shr_fexp_exact m e l ltac:(lia)) as [He1 Hm1].
  destruct (shr_fexp prec emax m e l) as [mrs1 e1]. cbn [fst snd] in Hm1, He1.
  set (m2 := round_nearest_even (shr_m mrs1) (loc_of_shr_record mrs1)).
  pose proof (round_nearest_even_bounds (shr_m mrs1) (loc_of_shr_record mrs1)) as Hm2.
  fold m2 in Hm2.
  assert (Ht : exists t, (t = 0 \/ t = 1) /\ e1 = e + t
                         /\ 2 ^ 52 <= m / 2 ^ t < 2 ^ 53 /\ shr_m mrs1 = m / 2 ^ t).
  { destruct (Zdigits2_53_54 m Hm) as [[Hlt Hd]|[Hge Hd]]; rewrite Hd in *.
    - exists 0. replace (Z.max e (fexp prec emax (53 + e))) with e in *
        by (unfold fexp, SpecFloat.emin, prec, emax; lia).
      rewrite Z.sub_diag in Hm1. rewrite Z.pow_0_r, Z.div_1_r in *.
      repeat split; lia.
    - exists 1. replace (Z.max e (fexp prec emax (54 + e))) with (e + 1) in *
        by (unfold fexp, SpecFloat.emin, prec, emax; lia).
      replace (e + 1 - e) with 1 in Hm1 by lia.
      change (2 ^ 1) with 2 in *.
      assert (2 ^ 52 <= m / 2 < 2 ^ 53)
        by (split; [apply Z.div_le_lower_bound | apply Z.div_lt_upper_bound]; lia).
      repeat split; lia. }
  destruct Ht as (t & Ht & -> & Hm1r & Hm1e). rewrite Hm1e in Hm2.
  pose proof (shr_fexp_exact m2 (e + t) loc_Exact ltac:(lia)) as [He3 Hm3].
  destruct (shr_fexp prec emax m2 (e + t) loc_Exact) as [mrs3 e3].
  cbn [fst snd] in Hm3, He3.
  destruct (Z_lt_le_dec m2 (2 ^ 53)) as [Hlt|Hge].
  - assert (Hd : Zdigits2 m2 = 53).
    { destruct (Zdigits2_53_54 m2 ltac:(lia)) as [[_ Hd]|[Hge _]]; [exact Hd | lia]. }
    rewrite Hd in *.
    replace (Z.max (e + t) (fexp prec emax (53 + (e + t)))) with (e + t) in *
      by (unfold fexp, SpecFloat.emin, prec, emax; lia).
    rewrite Z.sub_diag, Z.pow_0_r, Z.div_1_r in Hm3. subst e3. rewrite Hm3.
    destruct m2 as [|p2|p2] eqn:Hp2; try lia.
    exists p2, (e + t), t, (Zpos p2).
    replace (e + t <=? emax - prec) with true
      by (symmetry; apply Z.leb_le; unfold emax, prec; lia).
    split; [reflexivity|]. split; [exact Ht|]. split; [lia|].
    split; [lia|]. split; [lia|]. f_equal. f_equal. lia.
  - assert (Heq : m2 = 2 ^ 53) by lia.
    assert (Hd : Zdigits2 m2 = 54) by (rewrite Heq; reflexivity).
    rewrite Hd in *.
    replace (Z.max (e + t) (fexp prec emax (54 + (e + t)))) with (e + t + 1) in *
      by (unfold fexp, SpecFloat.emin, prec, emax; lia).
    replace (e + t + 1 - (e + t)) with 1 in Hm3 by lia.
    rewrite Heq in Hm3. change (2 ^ 53 / 2 ^ 1) with (2 ^ 52) in Hm3.
    subst e3. rewrite Hm3. change (2 ^ 52) with (Zpos (2 ^ 52)) at 1.
    cbv iota.
    exists (2 ^ 52)%positive, (e + t + 1), t, m2.
    replace (e + t + 1 <=? emax - prec) with true
      by (symmetry; apply Z.leb_le; unfold emax, prec; lia).
    split; [reflexivity|]. split; [exact Ht|]. split; [lia|].
    split; [lia|]. split; [lia|].
    rewrite Heq. replace (e + t + 1 - e) with (1 + t) by lia.
    rewrite Z.pow_add_r by lia. change (2 ^ 53) with (Zpos (2 ^ 52) * 2 ^ 1). ring.
Qed.
(** [nearest_hundredths] in units of [2 ^ - p]: for [v] the mantissa scaled
    to that unit, the integer nearest to [100 * v / 2 ^ p], halves up. *)
Lemma nearest_hundredths_scaled m e p :
  0 < p -> 0 <= e + p ->
  Z.of_N (nearest_hundredths m e)
  = (200 * (Zpos m * 2 ^ (e + p)) + 2 ^ p) / 2 ^ (p + 1).
Proof.
  intros Hp Hep.
  assert (Hpp : 0 < 2 ^ p) by (apply Z.pow_pos_nonneg; lia).
  destruct e as [|k|k]; unfold nearest_hundredths.
  - rewrite Z2N.id by lia. rewrite Z.pow_0_r, Z.add_0_l, Z.pow_add_r by lia.
    change (2 ^ 1) with 2.
    replace (200 * (Zpos m * 2 ^ p) + 2 ^ p) with ((200 * Zpos m + 1) * 2 ^ p) by ring.
    rewrite (Z.mul_comm (2 ^ p) 2), Z.div_mul_cancel_r by lia.
    apply Z.div_unique with 1; lia.
  - assert (Hk : 0 < 2 ^ Zpos k) by (apply Z.pow_pos_nonneg; lia).
    rewrite Z2N.id by nia. rewrite !Z.pow_add_r by lia. change (2 ^ 1) with 2.
    replace (200 * (Zpos m * (2 ^ Zpos k * 2 ^ p)) + 2 ^ p)
      with ((200 * (Zpos m * 2 ^ Zpos k) + 1) * 2 ^ p) by ring.
    rewrite (Z.mul_comm (2 ^ p) 2), Z.div_mul_cancel_r by lia.
    apply Z.div_unique with 1; lia.
  - assert (Hk : 0 < 2 ^ Zpos k) by (apply Z.pow_pos_nonneg; lia).
    assert (Hd : 0 < 2 ^ (Zpos k + 1)) by (apply Z.pow_pos_nonneg; lia).
    rewrite Z2N.id by (apply Z.div_pos; lia).
    assert (Hr : 0 < 2 ^ (Zneg k + p)) by (apply Z.pow_pos_nonneg; lia).
    replace (2 ^ p) with (2 ^ Zpos k * 2 ^ (Zneg k + p))
      by (rewrite <- Z.pow_add_r by lia; f_equal; lia).
    replace (2 ^ (p + 1)) with (2 ^ (Zpos k + 1) * 2 ^ (Zneg k + p))
      by (rewrite <- Z.pow_add_r by lia; f_equal; lia).
    replace (200 * (Zpos m * 2 ^ (Zneg k + p)) + 2 ^ Zpos k * 2 ^ (Zneg k + p))
      with ((200 * Zpos m + 2 ^ Zpos k) * 2 ^ (Zneg k + p)) by ring.
    rewrite Z.div_mul_cancel_r by lia. reflexivity.
Qed.

(** The arithmetic of the error: [v] is the rounded quotient of the
    mantissas in units of [2 ^ - p], [n] its hundredths. *)
Lemma hundredths_error (a b A B ma mb v n P : Z) :
  0 < A -> 0 <= b -> ma = a * A -> mb = b * B -> 0 <= mb -> P * B = 2 ^ 53 * A ->
  0 < P ->
  Z.abs (v * mb - ma * 2 ^ 53) <= 2 * ma ->
  2 * P * n <= 200 * v + P < 2 * P * (n + 1) ->
  2 ^ 53 * Z.abs (n * b - 100 * a) <= 2 ^ 52 * b + 200 * a.
Proof.
  intros HA Hb Hma Hmb Hmb0 HP HP0 Hv Hn.
  assert (Hid : 2 ^ 54 * A * (n * b - 100 * a)
                = (2 * P * n - 200 * v) * mb + 200 * (v * mb - ma * 2 ^ 53)).
  { rewrite Hma, Hmb. change (2 ^ 54) with (2 * 2 ^ 53).
    transitivity (2 * n * b * (P * B) - 200 * a * A * 2 ^ 53); [rewrite HP|]; ring. }
  assert (H1 : Z.abs ((2 * P * n - 200 * v) * mb) <= P * mb).
  { rewrite Z.abs_mul, (Z.abs_eq mb) by exact Hmb0.
    apply Z.mul_le_mono_nonneg_r; [exact Hmb0 | lia]. }
  assert (H2 : P * mb = 2 ^ 53 * A * b) by (rewrite Hmb, <- HP; ring).
  assert (H3 : Z.abs (2 ^ 54 * A * (n * b - 100 * a)) <= A * (2 ^ 53 * b + 400 * a)).
  { rewrite Hid. subst ma. lia. }
  rewrite Z.abs_mul, Z.abs_mul, (Z.abs_eq A), (Z.abs_eq (2 ^ 54)) in H3 by lia.
  change (2 ^ 54) with (2 * 2 ^ 53) in H3.
  assert (H4 : A * (2 * 2 ^ 53 * Z.abs (n * b - 100 * a)) <= A * (2 ^ 53 * b + 400 * a))
    by lia.
  apply Z.mul_le_mono_pos_l in H4; [|exact HA]. lia.
Qed.

(** The average shown is the exact quotient, rounded to hundredths, up to
    the rounding of the division: with [n] the hundredths shown,
    [|n / 100 - total / count| <= 1 / 200 + (total / count) / 2 ^ 52]. *)
Lemma average_quotient_near (total count : nat) :
  (0 < count)%nat -> Z.of_nat total < 2 ^ 53 -> Z.of_nat count < 2 ^ 53 ->
  exists n : N,
    toFixed2 (SFdiv prec emax (number_of_nat total) (number_of_nat count))
    = fixed2_digits n
    /\ 2 ^ 53 * Z.abs (Z.of_N n * Z.of_nat count - 100 * Z.of_nat total)
       <= 2 ^ 52 * Z.of_nat count + 200 * Z.of_nat total.
Proof.
  intros Hcount Htotal Hc.
  destruct (number_of_nat_normal count Hcount Hc) as (mb & eb & -> & Hmb & Heb & HB).
  destruct total as [|total'].
  - exists 0%N. split; [reflexivity|]. simpl Z.of_N. lia.
  - destruct (number_of_nat_normal (S total') ltac:(lia) Htotal)
      as (ma & ea & -> & Hma & Hea & HA).
    set (a := Z.of_nat (S total')) in *. set (b := Z.of_nat count) in *.
    rewrite SFdiv_normal by assumption.
    set (q := Zpos ma * 2 ^ 53 / Zpos mb).
    assert (Hq : 2 ^ 52 <= q < 2 ^ 54).
    { split; [apply Z.div_le_lower_bound | apply Z.div_lt_upper_bound]; lia. }
    destruct (binary_round_aux_near q (ea - eb - 53)
                (new_location (Zpos mb) (Zpos ma * 2 ^ 53 mod Zpos mb)) Hq ltac:(lia))
      as (m' & e' & t & m2 & -> & Ht & He' & Hm1 & Hm2 & Hv).
    exists (nearest_hundredths m' e'). split; [reflexivity|].
    set (p := 53 - ea + eb).
    assert (Hp : 0 < p) by (unfold p; lia).
    replace (e' - (ea - eb - 53)) with (e' + p) in Hv by (unfold p; lia).
    pose proof (nearest_hundredths_scaled m' e' p Hp ltac:(unfold p; lia)) as Hn.
    rewrite Hv in Hn.
    assert (HP : 0 < 2 ^ p) by (apply Z.pow_pos_nonneg; lia).
    assert (HP1 : 2 ^ (p + 1) = 2 * 2 ^ p) by (rewrite Z.pow_add_r by lia; ring).
    assert (HA0 : 0 < 2 ^ (- ea)) by (apply Z.pow_pos_nonneg; lia).
    assert (Ht2 : 0 < 2 ^ t) by (apply Z.pow_pos_nonneg; lia).
    apply (hundredths_error a b (2 ^ (- ea)) (2 ^ (- eb)) (Zpos ma) (Zpos mb)
             (m2 * 2 ^ t) (Z.of_N (nearest_hundredths m' e')) (2 ^ p));
      try assumption; try lia.
    + rewrite <- !Z.pow_add_r by lia. f_equal. unfold p. lia.
    + (* the rounded quotient is within [2 ^ t] of the exact one *)
      pose proof (Z.mul_div_le q (2 ^ t) Ht2) as Hlo1.
      pose proof (Z.mod_pos_bound q (2 ^ t) Ht2) as Hmod1.
      pose proof (Z.div_mod q (2 ^ t) ltac:(lia)) as Hdm1.
      pose proof (Z.div_mod (Zpos ma * 2 ^ 53) (Zpos mb) ltac:(lia)) as Hdm.
      pose proof (Z.mod_pos_bound (Zpos ma * 2 ^ 53) (Zpos mb) ltac:(lia)) as Hmod.
      fold q in Hdm.
      set (m1 := q / 2 ^ t) in *.
      set (r1 := q mod 2 ^ t) in *.
      set (r := (Zpos ma * 2 ^ 53) mod Zpos mb) in *.
      set (X := 2 ^ t * Zpos mb).
      assert (HX : 0 < X) by (unfold X; lia).
      assert (Hq0 : m1 * 2 ^ t <= q) by lia.
      assert (Hq1 : q + 1 <= (m1 + 1) * 2 ^ t) by lia.
      assert (Hlow : m1 * X <= Zpos ma * 2 ^ 53).
      { apply Z.le_trans with (Zpos mb * q); [|lia].
        replace (m1 * X) with (Zpos mb * (m1 * 2 ^ t)) by (unfold X; ring).
        apply Z.mul_le_mono_nonneg_l; lia. }
      assert (Hhigh : Zpos ma * 2 ^ 53 < m1 * X + X).
      { apply Z.lt_le_trans with (Zpos mb * (q + 1)); [lia|].
        replace (m1 * X + X) with (Zpos mb * ((m1 + 1) * 2 ^ t)) by (unfold X; ring).
        apply Z.mul_le_mono_nonneg_l; lia. }
      assert (Hunit : 2 ^ 52 * X <= Zpos ma * 2 ^ 53).
      { apply Z.le_trans with (m1 * X); [|exact Hlow].
        apply Z.mul_le_mono_nonneg_r; lia. }
      assert (Hunit' : X <= 2 * Zpos ma) by lia.
      assert (H2lo : m1 * X <= m2 * X) by (apply Z.mul_le_mono_nonneg_r; lia).
      assert (H2hi : m2 * X <= (m1 + 1) * X) by (apply Z.mul_le_mono_nonneg_r; lia).
      replace (m2 * 2 ^ t * Zpos mb) with (m2 * X) by (unfold X; ring).
      apply Z.abs_le. lia.
    + rewrite <- HP1, Hn. split.
      * apply Z.mul_div_le. lia.
      * rewrite Z.mul_add_distr_l, Z.mul_1_r.
        pose proof (Z.mod_pos_bound (200 * (m2 * 2 ^ t) + 2 ^ p) (2 ^ (p + 1)) ltac:(lia)).
        pose proof (Z.div_mod (200 * (m2 * 2 ^ t) + 2 ^ p) (2 ^ (p + 1)) ltac:(lia)).
        lia.
Qed.
End Binary64.

(** ** Averages *)

Lemma uint_units_digits d : Forall (fun c => is_digit c = true) (uint_units d).
Proof. induction d; simpl; constructor; try reflexivity; assumption. Qed.

Lemma String_of_N_digits n : Forall (fun c => is_digit c = true) (String_of_N n).
Proof. apply uint_units_digits. Qed.

Lemma fixed2_digits_two_decimals n : two_decimals (fixed2_digits n).
Proof.
  unfold fixed2_digits. set (m := padStart0 (String_of_N n) 3).
  assert (Hlen : 3 <= length m).
  { unfold m, padStart0, repeat_unit. rewrite length_app, length_replicate. lia. }
  assert (Hdigits : Forall (fun c => is_digit c = true) m).
  { unfold m, padStart0, repeat_unit. apply Forall_app. split.
    - apply Forall_replicate. reflexivity.
    - apply String_of_N_digits. }
  assert (Hlast : length (drop (length m - 2) m) = 2) by (rewrite length_drop; lia).
  destruct (drop (length m - 2) m) as [|d1 [|d2 [|d3 rest]]] eqn:Hdrop;
    try discriminate.
  exists (take (length m - 2) m), d1, d2. split; [reflexivity|]. split.
  - intros Hnil. apply (f_equal length) in Hnil.
    rewrite length_take in Hnil. simpl in Hnil. lia.
  - rewrite <- Hdrop, take_drop. exact Hdigits.
Qed.

Lemma toFixed2_quotient_two_decimals (total count : nat) :
  0 < count -> (Z.of_nat total < 2 ^ 53)%Z -> (Z.of_nat count < 2 ^ 53)%Z ->
  two_decimals
    (toFixed2 (SFdiv prec emax (number_of_nat total) (number_of_nat count))).
Proof.
  intros Hcount Htotal Hc.
  destruct (average_quotient_bounded total count Hcount Htotal Hc)
    as [->|(m & e & -> & _)]; apply fixed2_digits_two_decimals.
Qed.

(** Where the total is below 2^53 / 400, the hundredths shown are within
    half a hundredth of the exact quotient. *)
Lemma average_within_half_hundredth (total count : nat) :
  0 < count -> (400 * Z.of_nat total < 2 ^ 53)%Z -> (Z.of_nat count < 2 ^ 53)%Z ->
  exists n : N,
    average total count = JStr (fixed2_digits n)
    /\ (Z.abs (2 * (Z.of_N n * Z.of_nat count - 100 * Z.of_nat total))
        <= Z.of_nat count)%Z.
Proof.
  intros Hcount Htotal Hc.
  destruct (average_quotient_near total count Hcount ltac:(lia) Hc) as (n & Hn & Herr).
  exists n. split.
  - unfold average. destruct (Nat.ltb_spec 0 count) as [_|Hle]; [|lia].
    rewrite Hn. reflexivity.
  - lia.
Qed.

(** C7: for no notes both averages are the number 0, shown as [0]: nothing
    is divided.  For a corpus with notes each average is the binary64
    quotient of the total by the number of notes, shown by [toFixed(2)]:
    digits, a point and two digits, the hundredths being within half a
    hundredth of the exact quotient. *)
Theorem averages_of_corpus :
  averageWordCount [] = JNum 0
  /\ averageLinkCount [] = JNum 0
  /\ ToString (averageWordCount []) = lit "0"
  /\ ToString (averageLinkCount []) = lit "0"
  /\ (forall n notes,
        averageWordCount (n :: notes)
        = JStr (toFixed2 (SFdiv prec emax
                            (number_of_nat (totalWordCount (n :: notes)))
                            (number_of_nat (totalNotesCount (n :: notes)))))
        /\ averageLinkCount (n :: notes)
           = JStr (toFixed2 (SFdiv prec emax
                               (number_of_nat (totalLinkCount (n :: notes)))
                               (number_of_nat (totalNotesCount (n :: notes))))))
  /\ (forall total count,
        0 < count -> (400 * Z.of_nat total < 2 ^ 53)%Z -> (Z.of_nat count < 2 ^ 53)%Z ->
        exists n : N,
          average total count = JStr (fixed2_digits n)
          /\ two_decimals (fixed2_digits n)
          /\ (Z.abs (2 * (Z.of_N n * Z.of_nat count - 100 * Z.of_nat total))
              <= Z.of_nat count)%Z)
  /\ average 9 3 = JStr (lit "3.00")
  /\ average 1 3 = JStr (lit "0.33")
  /\ average 2 3 = JStr (lit "0.67")
  /\ average 7 2 = JStr (lit "3.50")
  /\ average 1 200 = JStr (lit "0.01")
  /\ average 3 200 = JStr (lit "0.01")
  /\ toFixed2 (SFdiv prec emax (number_of_nat 0) (number_of_nat 0)) = lit "NaN".
Proof.
  repeat split; try reflexivity.
  intros total count Hcount Htotal Hc.
  destruct (average_within_half_hundredth total count Hcount Htotal Hc)
    as (n & Hn & Herr).
  exists n. split; [exact Hn|]. split; [apply fixed2_digits_two_decimals | exact Herr].
Qed.

Lemma averages_of_corpus_witness :
  exists n : N,
    average 9 4 = JStr (fixed2_digits n)
    /\ two_decimals (fixed2_digits n)
    /\ (Z.abs (2 * (Z.of_N n * Z.of_nat 4 - 100 * Z.of_nat 9)) <= Z.of_nat 4)%Z.
Proof.
  apply (proj1 (proj2 (proj2 (proj2 (proj2 (proj2 averages_of_corpus))))) 9 4).
  - lia.
  - reflexivity.
  - reflexivity.
Defined.

(** * Further properties of the script *)

(** *** The mapping of the months *)

Lemma countFilesByMonth_lookup notes key :
  countFilesByMonth notes !! key
  = match notes_of_key key notes with
    | [] => None
    | ns => Some (N.of_nat (length ns))
    end.
Proof.
  unfold countFilesByMonth. rewrite foldl_count_note_lookup, lookup_empty.
  cbn [default]. destruct (notes_of_key key notes); reflexivity.
Qed.

Lemma month_key_of_shape name key :
  month_key_of name = Some key -> month_key_shape key.
Proof.
  intros H. apply month_key_of_Some in H as (pre & d & post & _ & [Hl Hd] & _ & ->).
  exists (take 4 d), (take 2 (drop 4 d)). split; [reflexivity|].
  split; [rewrite length_take; lia|]. split; [apply Forall_take, Hd|].
  split; [rewrite length_take, length_drop; lia|].
  apply Forall_take, Forall_drop, Hd.
Qed.

Lemma countFilesByMonth_count_le notes key c :
  countFilesByMonth notes !! key = Some c -> (c <= N.of_nat (length notes))%N.
Proof.
  rewrite countFilesByMonth_lookup.
  pose proof (length_filter (fun n => month_key_of (filename n) = Some key) notes) as Hle.
  fold (notes_of_key key notes) in Hle.
  destruct (notes_of_key key notes) as [|n ns]; [discriminate|].
  intros Hc. assert (c = N.of_nat (length (n :: ns))) as -> by congruence. lia.
Qed.

(** X4: every key of the mapping the classifier builds is four digits, a
    dash and two digits, and holds a count of at least 1 and at most the
    number of notes: the number of notes whose time stamp gives that key. *)
Theorem countFilesByMonth_entries notes key c :
  countFilesByMonth notes !! key = Some c ->
  month_key_shape key
  /\ c = N.of_nat (length (notes_of_key key notes))
  /\ (1 <= c)%N
  /\ (c <= N.of_nat (length notes))%N.
Proof.
  rewrite countFilesByMonth_lookup.
  destruct (notes_of_key key notes) as [|n ns] eqn:Hns; [discriminate|].
  intros Hc. assert (c = N.of_nat (length (n :: ns))) as -> by congruence.
  assert (Hn : n ∈ notes_of_key key notes) by (rewrite Hns; left).
  apply list_elem_of_filter in Hn as [Hkey _].
  pose proof (length_filter (fun n => month_key_of (filename n) = Some key) notes) as Hle.
  fold (notes_of_key key notes) in Hle. rewrite Hns in Hle.
  split; [eapply month_key_of_shape, Hkey|]. split; [reflexivity|].
  cbn [length] in *. lia.
Qed.

Lemma countFilesByMonth_entries_witness :
  countFilesByMonth example_corpus !! lit "2024-01" = Some 2%N
  /\ month_key_shape (lit "2024-01")
  /\ 2%N = N.of_nat (length (notes_of_key (lit "2024-01") example_corpus))
  /\ (1 <= 2)%N
  /\ (2 <= N.of_nat (length example_corpus))%N.
Proof.
  assert (H : countFilesByMonth example_corpus !! lit "2024-01" = Some 2%N)
    by (vm_compute; reflexivity).
  split; [exact H|].
  exact (countFilesByMonth_entries example_corpus (lit "2024-01") 2%N H).
Defined.

Lemma counted_notes_insert_fresh (counts : gmap jsstring N) key c :
  counts !! key = None ->
  counted_notes (<[key := c]> counts) = N.to_nat c + counted_notes counts.
Proof.
  intros Hkey. unfold counted_notes, Object_values.
  rewrite (map_to_list_insert counts key c Hkey). reflexivity.
Qed.

Lemma counted_notes_delete (counts : gmap jsstring N) key c :
  counts !! key = Some c ->
  counted_notes counts = N.to_nat c + counted_notes (delete key counts).
Proof.
  intros Hkey. unfold counted_notes, Object_values.
  rewrite <- (map_to_list_delete counts key c Hkey). reflexivity.
Qed.

Lemma counted_notes_count_note counts n :
  counted_notes (count_note counts n)
  = (if decide (is_Some (month_key_of (filename n))) then 1 else 0)
    + counted_notes counts.
Proof.
  unfold count_note. destruct (month_key_of (filename n)) as [key|] eqn:Hkey.
  - destruct (decide (is_Some (Some key))) as [_|Hno]; [|exfalso; eauto].
    destruct (counts !! key) as [c|] eqn:Hc; cbn [default].
    + rewrite <- insert_delete_eq, counted_notes_insert_fresh
        by apply lookup_delete_eq.
      rewrite (counted_notes_delete counts key c Hc). unfold id. lia.
    + rewrite counted_notes_insert_fresh by exact Hc. reflexivity.
  - destruct (decide (is_Some None)) as [[? ?]|_]; [discriminate | reflexivity].
Qed.

Lemma counted_notes_foldl notes : forall counts,
  counted_notes (foldl count_note counts notes)
  = length (stamped_notes notes) + counted_notes counts.
Proof.
  induction notes as [|n notes IH]; intros counts; [reflexivity|].
  cbn [foldl]. rewrite IH, counted_notes_count_note.
  unfold stamped_notes. rewrite filter_cons.
  destruct (decide (is_Some (month_key_of (filename n)))); cbn [length]; lia.
Qed.

(** X5: the counts of the mapping add up to the number of notes whose file
    name has a time stamp: every such note is counted once, under one key,
    and no other note is counted. *)
Theorem countFilesByMonth_counts_every_stamped_note notes :
  counted_notes (countFilesByMonth notes) = length (stamped_notes notes)
  /\ counted_notes (countFilesByMonth notes) <= totalNotesCount notes.
Proof.
  assert (H : counted_notes (countFilesByMonth notes) = length (stamped_notes notes)).
  { unfold countFilesByMonth. rewrite counted_notes_foldl.
    unfold counted_notes, Object_values. rewrite map_to_list_empty. cbn. lia. }
  split; [exact H|]. rewrite H. apply length_filter.
Qed.

(** *** The table of a corpus *)

Lemma table_years_of_corpus notes y :
  y ∈ table_years (countFilesByMonth notes) <->
  exists n key, n ∈ notes /\ month_key_of (filename n) = Some key /\ y = slice 0 4 key.
Proof.
  rewrite elem_of_table_years. split.
  - intros (key & [c Hc] & ->). rewrite countFilesByMonth_lookup in Hc.
    destruct (notes_of_key key notes) as [|n ns] eqn:Hns; [discriminate|].
    assert (Hn : n ∈ notes_of_key key notes) by (rewrite Hns; left).
    apply list_elem_of_filter in Hn as [Hkey Hn]. eauto.
  - intros (n & key & Hn & Hkey & ->). exists key. split; [|reflexivity].
    rewrite countFilesByMonth_lookup.
    assert (Hin : n ∈ notes_of_key key notes) by (apply list_elem_of_filter; auto).
    destruct (notes_of_key key notes); [inversion Hin | eauto].
Qed.


Lemma String_of_N_narrow c : (c < 1000)%N -> length (String_of_N c) <= 3.
Proof.
  intros Hc.
  assert (H : narrow_ok c = true).
  { apply (forallb_below narrow_ok (N.to_nat 1000)); [vm_compute; reflexivity|].
    rewrite N2Nat.id. exact Hc. }
  apply Nat.leb_le, H.
Qed.

Lemma digits_no_newline s :
  Forall (fun c => is_digit c = true) s -> no_newline s.
Proof.
  intros H. eapply Forall_impl; [exact H|]. intros c Hc ->. discriminate.
Qed.

Lemma padEnd_no_newline s w : no_newline s -> no_newline (padEnd s w).
Proof.
  intros Hs. unfold padEnd, repeat_unit. apply Forall_app. split; [exact Hs|].
  apply Forall_replicate. discriminate.
Qed.

Lemma table_years_of_corpus_shape notes y :
  y ∈ table_years (countFilesByMonth notes) ->
  length y = 4 /\ Forall (fun c => is_digit c = true) y.
Proof.
  intros Hy. apply table_years_of_corpus in Hy as (n & key & _ & Hkey & ->).
  apply month_key_of_shape in Hkey as (year & month & -> & Hl & Hd & _).
  unfold slice. cbn [Nat.sub]. rewrite drop_0.
  rewrite take_app_length' by (symmetry; exact Hl). auto.
Qed.

Lemma maxYearWidth_four years :
  Forall (fun y => length y = 4) years -> maxYearWidth years = 4.
Proof.
  intros H. unfold maxYearWidth. induction H as [|y years Hy _ IH]; [reflexivity|].
  cbn [fmap list_fmap app]. change (max_list (length y :: ?l)) with (max (length y) (max_list l)).
  cbn [fmap list_fmap] in IH. rewrite IH, Hy. reflexivity.
Qed.

Lemma table_cell_of_corpus notes y i :
  length notes < 1000 ->
  length (table_cell (countFilesByMonth notes) 3 y i) = 3
  /\ no_newline (table_cell (countFilesByMonth notes) 3 y i).
Proof.
  intros Hlen.
  assert (Hc : (default 0%N (countFilesByMonth notes !! cell_key y i) < 1000)%N).
  { destruct (countFilesByMonth notes !! cell_key y i) as [c|] eqn:Hc; [|reflexivity].
    apply countFilesByMonth_count_le in Hc. cbn [default]. unfold id. lia. }
  split.
  - rewrite table_cell_length. apply String_of_N_narrow in Hc. lia.
  - apply padEnd_no_newline, digits_no_newline, String_of_N_digits.
Qed.

Lemma year_line_of_corpus notes y :
  length notes < 1000 ->
  y ∈ table_years (countFilesByMonth notes) ->
  length (year_line (countFilesByMonth notes) y) = 80
  /\ no_newline (year_line (countFilesByMonth notes) y).
Proof.
  intros Hlen Hy. apply table_years_of_corpus_shape in Hy as [Hl Hd].
  unfold year_line. cbn [seq fmap list_fmap concat]. split.
  - rewrite !length_app, length_padEnd, Hl.
    rewrite !(proj1 (table_cell_of_corpus notes y _ Hlen)). reflexivity.
  - unfold no_newline.
    repeat (apply Forall_app; split);
      first [ apply digits_no_newline; first [exact Hd | apply String_of_N_digits]
            | apply Forall_replicate; discriminate
            | repeat constructor; discriminate ].
Qed.



(** X7: for a corpus of fewer than 1000 notes the table is a rectangle: 2
    lines and one for every year, each 80 units long and closed by a line
    break, so every column of the years lines up with the header. *)
Theorem table_of_corpus_aligned notes :
  length notes < 1000 ->
  exists lines,
    createMonthlyTable (countFilesByMonth notes)
    = concat ((fun line => line ++ newline) <$> lines)
    /\ length lines = 2 + length (table_years (countFilesByMonth notes))
    /\ Forall (fun line => length line = 80 /\ no_newline line) lines.
Proof.
  intros Hlen. set (counts := countFilesByMonth notes).
  assert (Hw : maxYearWidth (table_years counts) = 4).
  { apply maxYearWidth_four, Forall_forall. intros y Hy.
    apply (table_years_of_corpus_shape notes y Hy). }
  exists (lit "| Year | Jan | Feb | Mar | Apr | May | Jun | Jul | Aug | Sep | Oct | Nov | Dec |"
          :: lit "|------|-----|-----|-----|-----|-----|-----|-----|-----|-----|-----|-----|-----|"
          :: (year_line counts <$> table_years counts)).
  split; [|split].
  - rewrite createMonthlyTable_rows, Hw.
    assert (Hrows : concat (data_row counts 4 <$> table_years counts)
                    = concat ((fun line => line ++ newline)
                                <$> (year_line counts <$> table_years counts))).
    { rewrite <- list_fmap_compose. f_equal.
      apply list_fmap_ext. intros k y _. unfold data_row, year_line, compose.
      rewrite <- !app_assoc. reflexivity. }
    rewrite Hrows. reflexivity.
  - cbn [length]. rewrite length_fmap. reflexivity.
  - constructor; [split; [reflexivity | repeat constructor; discriminate]|].
    constructor; [split; [reflexivity | repeat constructor; discriminate]|].
    apply Forall_fmap, Forall_forall. intros y Hy.
    apply year_line_of_corpus; assumption.
Qed.

Lemma table_of_corpus_aligned_witness :
  length example_corpus < 1000
  /\ exists lines,
       createMonthlyTable (countFilesByMonth example_corpus)
       = concat ((fun line => line ++ newline) <$> lines)
       /\ length lines = 2 + length (table_years (countFilesByMonth example_corpus))
       /\ Forall (fun line => length line = 80 /\ no_newline line) lines.
Proof.
  assert (H : length example_corpus < 1000) by (cbn; lia).
  split; [exact H|]. exact (table_of_corpus_aligned example_corpus H).
Defined.

(** *** The order of the notes *)

Lemma foldl_add_sum {A} (f : A -> nat) (l : list A) : forall acc,
  foldl (fun acc x => acc + f x) acc l = acc + sum_list_with f l.
Proof.
  induction l as [|x l IH]; intros acc; cbn [foldl sum_list_with]; [lia|].
  rewrite IH. lia.
Qed.

Lemma totalWordCount_sum notes :
  totalWordCount notes = sum_list_with (fun n => countWords (content n)) notes.
Proof. unfold totalWordCount. apply (foldl_add_sum _ notes 0). Qed.

Lemma totalLinkCount_sum notes :
  totalLinkCount notes = sum_list_with (fun n => countLinks (content n)) notes.
Proof. unfold totalLinkCount. apply (foldl_add_sum _ notes 0). Qed.

Lemma countFilesByMonth_Permutation notes notes' :
  notes ≡ₚ notes' -> countFilesByMonth notes = countFilesByMonth notes'.
Proof.
  intros Hperm. apply map_eq. intros key. rewrite !countFilesByMonth_lookup.
  assert (Hf : notes_of_key key notes ≡ₚ notes_of_key key notes')
    by (unfold notes_of_key; rewrite Hperm; reflexivity).
  pose proof (Permutation_length Hf) as Hlen.
  destruct (notes_of_key key notes), (notes_of_key key notes');
    try discriminate; [reflexivity|]. rewrite Hlen. reflexivity.
Qed.

(** X8: the report does not depend on the order in which the notes are
    given: the totals, the averages, the count of tagged notes, the mapping
    of the months and so the whole document are the same for a corpus and
    for any rearrangement of it. *)
Theorem report_independent_of_note_order targetTitle now notes notes' :
  notes ≡ₚ notes' ->
  totalWordCount notes = totalWordCount notes'
  /\ totalLinkCount notes = totalLinkCount notes'
  /\ countProofingNotes notes = countProofingNotes notes'
  /\ countFilesByMonth notes = countFilesByMonth notes'
  /\ body targetTitle now notes = body targetTitle now notes'.
Proof.
  intros Hperm.
  assert (Hn : totalNotesCount notes = totalNotesCount notes')
    by (apply Permutation_length, Hperm).
  assert (Hw : totalWordCount notes = totalWordCount notes')
    by (rewrite !totalWordCount_sum, Hperm; reflexivity).
  assert (Hl : totalLinkCount notes = totalLinkCount notes')
    by (rewrite !totalLinkCount_sum, Hperm; reflexivity).
  assert (Hp : countProofingNotes notes = countProofingNotes notes')
    by (unfold countProofingNotes; rewrite Hperm; reflexivity).
  assert (Hm : countFilesByMonth notes = countFilesByMonth notes')
    by (apply countFilesByMonth_Permutation, Hperm).
  repeat split; try assumption.
  unfold body, averageWordCount, averageLinkCount.
  rewrite Hn, Hw, Hl, Hp, Hm. reflexivity.
Qed.

Lemma report_independent_of_note_order_witness :
  example_corpus ≡ₚ rev example_corpus
  /\ body (lit "Stats") example_now example_corpus
     = body (lit "Stats") example_now (rev example_corpus).
Proof.
  assert (H : example_corpus ≡ₚ rev example_corpus)
    by (symmetry; apply Permutation_rev).
  split; [exact H|].
  exact (proj2 (proj2 (proj2 (proj2
           (report_independent_of_note_order (lit "Stats") example_now _ _ H))))).
Defined.

(** *** Date and time *)

Lemma two_digits_parse n : (n < 100)%N -> parse_units (two_digits n) = n.
Proof.
  intros Hn. apply N.eqb_eq.
  apply (forallb_below two_digits_parse_ok 100); [vm_compute; reflexivity | exact Hn].
Qed.

Lemma two_digits_inj n n' :
  (n < 100)%N -> (n' < 100)%N -> two_digits n = two_digits n' -> n = n'.
Proof.
  intros Hn Hn' H. rewrite <- (two_digits_parse n Hn), <- (two_digits_parse n' Hn'), H.
  reflexivity.
Qed.

Lemma year_parse y :
  (1000 <= y <= 9999)%Z -> Z.of_N (parse_units (String_of_Z y)) = y.
Proof.
  intros Hy.
  assert (H : year_parse_ok (Z.to_N y) = true).
  { apply (forallb_below year_parse_ok (N.to_nat 10000)); [vm_compute; reflexivity|].
    rewrite N2Nat.id. lia. }
  unfold year_parse_ok in H. rewrite Z2N.id in H by lia.
  apply orb_true_iff in H as [H|H]; [apply N.ltb_lt in H; lia|].
  apply N.eqb_eq in H. rewrite H. lia.
Qed.

Lemma formattedTime_parts now :
  formattedTime now
  = two_digits (if (getHours now mod 12 =? 0)%N then 12 else getHours now mod 12)%N
    ++ lit ":" ++ two_digits (getMinutes now) ++ lit " "
    ++ (if (12 <=? getHours now)%N then lit "PM" else lit "AM").
Proof. reflexivity. Qed.

(** X9: the time of the front matter is eight units, [hh:mm AM] or
    [hh:mm PM], and loses nothing of the hour and minute: two moments with
    the same formatted time have the same hour of the day and the same
    minute. *)
Theorem formattedTime_determines_hour_and_minute now now' :
  valid_time now -> valid_time now' ->
  length (formattedTime now) = 8
  /\ (formattedTime now = formattedTime now' ->
      getHours now = getHours now' /\ getMinutes now = getMinutes now').
Proof.
  intros [Hh Hm] [Hh' Hm'].
  set (h12 := (if (getHours now mod 12 =? 0)%N then 12 else getHours now mod 12)%N).
  set (h12' := (if (getHours now' mod 12 =? 0)%N then 12 else getHours now' mod 12)%N).
  assert (H12 : (1 <= h12 <= 12)%N).
  { unfold h12. destruct (N.eqb_spec (getHours now mod 12) 0); [lia|].
    pose proof (N.mod_upper_bound (getHours now) 12). lia. }
  assert (H12' : (1 <= h12' <= 12)%N).
  { unfold h12'. destruct (N.eqb_spec (getHours now' mod 12) 0); [lia|].
    pose proof (N.mod_upper_bound (getHours now') 12). lia. }
  destruct (two_digits_shape h12 ltac:(lia)) as [Hl12 _].
  destruct (two_digits_shape h12' ltac:(lia)) as [Hl12' _].
  destruct (two_digits_shape (getMinutes now) ltac:(lia)) as [Hlm _].
  destruct (two_digits_shape (getMinutes now') ltac:(lia)) as [Hlm' _].
  rewrite !formattedTime_parts. fold h12 h12'. split.
  - rewrite !length_app, Hl12, Hlm. destruct (12 <=? getHours now)%N; reflexivity.
  - intros Heq.
    apply app_inj_1 in Heq as [Hhours Heq]; [|congruence].
    injection Heq as Heq.
    apply app_inj_1 in Heq as [Hmin Heq]; [|congruence].
    apply two_digits_inj in Hhours; [|lia|lia].
    apply two_digits_inj in Hmin; [|lia|lia].
    split; [|exact Hmin].
    assert (Hhalf : (12 <=? getHours now)%N = (12 <=? getHours now')%N).
    { destruct (12 <=? getHours now)%N, (12 <=? getHours now')%N;
        try reflexivity; discriminate. }
    unfold h12, h12' in Hhours.
    pose proof (N.div_mod (getHours now) 12 ltac:(lia)) as Hd.
    pose proof (N.div_mod (getHours now') 12 ltac:(lia)) as Hd'.
    pose proof (N.mod_upper_bound (getHours now) 12 ltac:(lia)) as Hu.
    pose proof (N.mod_upper_bound (getHours now') 12 ltac:(lia)) as Hu'.
    destruct (N.eqb_spec (getHours now mod 12) 0) as [E|E],
             (N.eqb_spec (getHours now' mod 12) 0) as [E'|E'],
             (N.leb_spec 12 (getHours now)), (N.leb_spec 12 (getHours now'));
      try discriminate; lia.
Qed.

Lemma formattedTime_determines_hour_and_minute_witness :
  let midnight := {| getFullYear := 2024; getMonth := 0; getDate := 1;
                     getHours := 0; getMinutes := 7 |} in
  valid_time midnight
  /\ length (formattedTime midnight) = 8
  /\ formattedTime midnight = lit "12:07 AM".
Proof.
  intros midnight.
  assert (H : valid_time midnight) by (split; cbn; lia).
  split; [exact H|]. split; [|reflexivity].
  exact (proj1 (formattedTime_determines_hour_and_minute midnight midnight H H)).
Defined.

Lemma Date_eq (a b : Date) :
  getFullYear a = getFullYear b -> getMonth a = getMonth b ->
  getDate a = getDate b -> getHours a = getHours b ->
  getMinutes a = getMinutes b -> a = b.
Proof. destruct a, b. cbn. intros -> -> -> -> ->. reflexivity. Qed.

(** X10: the identifier is precise to the minute: two valid moments with the
    same identifier agree in year, month, day, hour and minute. *)
Theorem timestampString_injective now now' :
  valid_date now -> valid_date now' ->
  timestampString now = timestampString now' -> now = now'.
Proof.
  intros (Hy & Hm & Hd & Hh & Hmi) (Hy' & Hm' & Hd' & Hh' & Hmi') Heq.
  rewrite !timestampString_parts in Heq.
  destruct (year_shape _ Hy) as [Hyl _]. destruct (year_shape _ Hy') as [Hyl' _].
  destruct (two_digits_shape (getMonth now + 1) ltac:(lia)) as [Hml _].
  destruct (two_digits_shape (getMonth now' + 1) ltac:(lia)) as [Hml' _].
  destruct (two_digits_shape (getDate now) ltac:(lia)) as [Hdl _].
  destruct (two_digits_shape (getDate now') ltac:(lia)) as [Hdl' _].
  destruct (two_digits_shape (getHours now) ltac:(lia)) as [Hhl _].
  destruct (two_digits_shape (getHours now') ltac:(lia)) as [Hhl' _].
  apply app_inj_1 in Heq as [Eyear Heq]; [|congruence].
  apply app_inj_1 in Heq as [Emonth Heq]; [|congruence].
  apply app_inj_1 in Heq as [Eday Heq]; [|congruence].
  apply app_inj_1 in Heq as [Ehours Emin]; [|congruence].
  apply two_digits_inj in Emonth; [|lia|lia].
  apply two_digits_inj in Eday; [|lia|lia].
  apply two_digits_inj in Ehours; [|lia|lia].
  apply two_digits_inj in Emin; [|lia|lia].
  apply Date_eq; try assumption; [|lia].
  rewrite <- (year_parse _ Hy), <- (year_parse _ Hy'), Eyear. reflexivity.
Qed.

Lemma timestampString_injective_witness :
  valid_date example_now
  /\ timestampString example_now = lit "202410121405"
  /\ example_now = example_now.
Proof.
  assert (Hv : valid_date example_now).
  { unfold valid_date, example_now. cbn. repeat split; lia. }
  split; [exact Hv|]. split; [reflexivity|].
  exact (timestampString_injective example_now example_now Hv Hv eq_refl).
Defined.

(** X11: the creation date and time of the front matter show the moment of
    the identifier: the date is the day, month and year digits of the
    identifier with dashes between, ten units in all, and the minutes of the
    time are the last two digits of the identifier. *)
Theorem humanReadableDate_of_timestamp now :
  valid_date now ->
  humanReadableDate now
  = slice 6 8 (timestampString now) ++ lit "-"
    ++ slice 4 6 (timestampString now) ++ lit "-"
    ++ slice 0 4 (timestampString now)
  /\ length (humanReadableDate now) = 10
  /\ slice 3 5 (formattedTime now) = slice 10 12 (timestampString now).
Proof.
  intros (Hy & Hm & Hd & Hh & Hmi).
  destruct (year_shape _ Hy) as [Hyl _].
  destruct (two_digits_shape (getMonth now + 1) ltac:(lia)) as [Hml _].
  destruct (two_digits_shape (getDate now) ltac:(lia)) as [Hdl _].
  destruct (two_digits_shape (getHours now) ltac:(lia)) as [Hhl _].
  destruct (two_digits_shape (getMinutes now) ltac:(lia)) as [Hmil _].
  set (h12 := (if (getHours now mod 12 =? 0)%N then 12 else getHours now mod 12)%N).
  assert (H12 : (h12 < 100)%N).
  { unfold h12. destruct (N.eqb_spec (getHours now mod 12) 0); [lia|].
    pose proof (N.mod_upper_bound (getHours now) 12). lia. }
  destruct (two_digits_shape h12 H12) as [Hl12 _].
  assert (Hdate : humanReadableDate now
                  = two_digits (getDate now) ++ lit "-"
                    ++ two_digits (getMonth now + 1) ++ lit "-"
                    ++ String_of_Z (getFullYear now)) by reflexivity.
  rewrite timestampString_parts, formattedTime_parts. fold h12.
  set (Y := String_of_Z (getFullYear now)) in *.
  set (M := two_digits (getMonth now + 1)) in *.
  set (D := two_digits (getDate now)) in *.
  set (H := two_digits (getHours now)) in *.
  set (MI := two_digits (getMinutes now)) in *.
  set (H12s := two_digits h12) in *.
  assert (S1 : slice 0 4 (Y ++ M ++ D ++ H ++ MI) = Y).
  { unfold slice. cbn [Nat.sub]. rewrite drop_0.
    apply take_app_length'. congruence. }
  assert (S2 : slice 4 6 (Y ++ M ++ D ++ H ++ MI) = M).
  { unfold slice. cbn [Nat.sub]. rewrite drop_app_length' by congruence.
    apply take_app_length'. congruence. }
  assert (S3 : slice 6 8 (Y ++ M ++ D ++ H ++ MI) = D).
  { unfold slice. cbn [Nat.sub].
    replace (Y ++ M ++ D ++ H ++ MI) with ((Y ++ M) ++ D ++ H ++ MI)
      by (rewrite <- app_assoc; reflexivity).
    rewrite drop_app_length' by (rewrite length_app; lia).
    apply take_app_length'. congruence. }
  assert (S4 : slice 10 12 (Y ++ M ++ D ++ H ++ MI) = MI).
  { unfold slice. cbn [Nat.sub].
    replace (Y ++ M ++ D ++ H ++ MI) with ((Y ++ M ++ D ++ H) ++ MI)
      by (rewrite <- !app_assoc; reflexivity).
    rewrite drop_app_length' by (rewrite !length_app; lia).
    apply firstn_all2. lia. }
  assert (S5 : slice 3 5 (H12s ++ lit ":" ++ MI ++ lit " "
                          ++ (if (12 <=? getHours now)%N then lit "PM" else lit "AM"))
               = MI).
  { unfold slice. cbn [Nat.sub].
    replace (H12s ++ lit ":" ++ MI ++ lit " "
             ++ (if (12 <=? getHours now)%N then lit "PM" else lit "AM"))
      with ((H12s ++ lit ":") ++ MI ++ lit " "
            ++ (if (12 <=? getHours now)%N then lit "PM" else lit "AM"))
      by (rewrite <- app_assoc; reflexivity).
    rewrite drop_app_length'
      by (rewrite length_app; change (length (lit ":")) with 1; lia).
    apply take_app_length'. congruence. }
  rewrite S1, S2, S3, S4, S5. split; [exact Hdate|]. split; [|reflexivity].
  rewrite Hdate, !length_app. change (length (lit "-")) with 1.
  rewrite Hdl, Hml, Hyl. reflexivity.
Qed.

Lemma humanReadableDate_of_timestamp_witness :
  valid_date example_now
  /\ humanReadableDate example_now = lit "12-10-2024"
  /\ length (humanReadableDate example_now) = 10.
Proof.
  assert (Hv : valid_date example_now).
  { unfold valid_date, example_now. cbn. repeat split; lia. }
  split; [exact Hv|]. split; [reflexivity|].
  exact (proj1 (proj2 (humanReadableDate_of_timestamp example_now Hv))).
Defined.

(** *** The average shown *)

(** X12: unless 100 times the quotient falls exactly half way between two
    integers, the average shown is the exact quotient of the total by the
    number of notes rounded to the nearest hundredth: the rounding of the
    binary64 division never shows. *)
Theorem average_rounds_to_nearest_hundredth (total count : nat) :
  0 < count ->
  (400 * Z.of_nat total < 2 ^ 53)%Z -> (Z.of_nat count < 2 ^ 53)%Z ->
  ((200 * Z.of_nat total + Z.of_nat count) mod (2 * Z.of_nat count) <> 0)%Z ->
  average total count
  = JStr (fixed2_digits
            (Z.to_N ((200 * Z.of_nat total + Z.of_nat count) / (2 * Z.of_nat count)))).
Proof.
  intros Hcount Htotal Hc Htie.
  destruct (average_within_half_hundredth total count Hcount Htotal Hc)
    as (n & -> & Herr).
  do 2 f_equal.
  set (t := Z.of_nat total) in *. set (c := Z.of_nat count) in *.
  assert (Hc0 : (0 < c)%Z) by (unfold c; lia).
  pose proof (Z.div_mod (200 * t + c) (2 * c) ltac:(lia)) as Hdm.
  pose proof (Z.mod_pos_bound (200 * t + c) (2 * c) ltac:(lia)) as Hmod.
  set (q := ((200 * t + c) / (2 * c))%Z) in *.
  set (r := ((200 * t + c) mod (2 * c))%Z) in *.
  assert (Hq : (0 <= q)%Z) by (apply Z.div_pos; unfold t; lia).
  assert (Hn : Z.of_N n = q); [|rewrite <- Hn; symmetry; apply N2Z.id].
  apply Z.abs_le in Herr.
  assert (Hup : (Z.of_N n < q + 1)%Z).
  { apply Z.mul_lt_mono_pos_l with (2 * c)%Z; [lia|]. nia. }
  assert (Hlo : (q - 1 < Z.of_N n)%Z).
  { apply Z.mul_lt_mono_pos_l with (2 * c)%Z; [lia|]. nia. }
  lia.
Qed.

Lemma average_rounds_to_nearest_hundredth_witness :
  average 2 3 = JStr (fixed2_digits 67) /\ fixed2_digits 67 = lit "0.67".
Proof.
  split; [|reflexivity].
  apply (average_rounds_to_nearest_hundredth 2 3).
  - lia.
  - reflexivity.
  - reflexivity.
  - discriminate.
Defined.

(** *** Words and links of joined texts *)

Lemma count_word_starts_app a : forall b text,
  count_word_starts b (a ++ text)
  = count_word_starts b a + count_word_starts (after_text b a) text.
Proof.
  induction a as [|c a IH]; intros b text; [reflexivity|].
  cbn [app count_word_starts after_text].
  destruct (is_space c); rewrite IH; lia.
Qed.

Lemma count_word_starts_le text b :
  count_word_starts b text <= count_word_starts true text
  /\ count_word_starts true text <= S (count_word_starts b text).
Proof.
  destruct text as [|c text]; cbn [count_word_starts]; [lia|].
  destruct (is_space c), b; lia.
Qed.

Lemma countWords_eq text : countWords text = count_word_starts true text.
Proof. apply (split_ws_from_words text false []). discriminate. Qed.

Lemma countWords_joined a ws b :
  ws <> [] -> all_space ws ->
  countWords (a ++ ws ++ b) = countWords a + countWords b.
Proof.
  intros Hne Hws. rewrite !countWords_eq, count_word_starts_app.
  rewrite count_word_starts_space_run by exact Hws.
  destruct ws; [congruence | reflexivity].
Qed.

Lemma totalWordCount_joined notes :
  totalWordCount notes = countWords (join newline (content <$> notes)).
Proof.
  rewrite totalWordCount_sum. induction notes as [|n notes IH]; [reflexivity|].
  cbn [sum_list_with fmap list_fmap]. rewrite IH.
  destruct notes as [|n' notes];
    [cbn [fmap list_fmap join]; change (countWords []) with 0; lia|].
  cbn [fmap list_fmap join].
  rewrite (countWords_joined (content n) newline); [reflexivity|discriminate|].
  repeat constructor.
Qed.

(** X13: joining two texts with white space adds their word counts, so the
    total word count of a corpus is the word count of the contents of its
    notes joined with line breaks; joined with nothing between, two texts
    have the sum of their words or one less, when the last word of the one
    and the first of the other run together; and a text has no more words
    than half its length, rounded up. *)
Theorem countWords_of_joined_texts :
  (forall a ws b,
     ws <> [] -> all_space ws ->
     countWords (a ++ ws ++ b) = countWords a + countWords b)
  /\ (forall notes,
        totalWordCount notes = countWords (join newline (content <$> notes)))
  /\ (forall a b,
        countWords a + countWords b <= S (countWords (a ++ b))
        /\ countWords (a ++ b) <= countWords a + countWords b)
  /\ (forall text, 2 * countWords text <= S (length text)).
Proof.
  split; [exact countWords_joined|]. split; [exact totalWordCount_joined|]. split.
  - intros a b. rewrite !countWords_eq, count_word_starts_app.
    pose proof (count_word_starts_le b (after_text true a)). lia.
  - intros text. rewrite countWords_eq.
    assert (H : 2 * count_word_starts true text <= S (length text)
                /\ 2 * count_word_starts false text <= length text); [|lia].
    induction text as [|c text [IHt IHf]]; cbn [count_word_starts length]; [lia|].
    destruct (is_space c); lia.
Qed.

Lemma countWords_of_joined_texts_witness :
  countWords (lit "one two" ++ [9%N; 10%N] ++ lit "three")
  = countWords (lit "one two") + countWords (lit "three").
Proof.
  apply (proj1 countWords_of_joined_texts).
  - discriminate.
  - repeat constructor.
Defined.

Lemma link_at_app_long s rest :
  3 <= length s -> link_at (s ++ rest) = link_at s.
Proof.
  destruct s as [|c [|c1 [|c2 s]]]; cbn [length]; try lia. reflexivity.
Qed.

Lemma count_suffixes_link_at_app a c b :
  c <> 91%N ->
  count_suffixes link_at (a ++ c :: b)
  = count_suffixes link_at a + count_suffixes link_at (c :: b).
Proof.
  intros Hc. induction a as [|x a IH]; [reflexivity|].
  change (count_suffixes link_at ((x :: a) ++ c :: b))
    with ((if link_at (x :: a ++ c :: b) then 1 else 0)
          + count_suffixes link_at (a ++ c :: b)).
  change (count_suffixes link_at (x :: a))
    with ((if link_at (x :: a) then 1 else 0) + count_suffixes link_at a).
  rewrite IH.
  assert (Hat : link_at (x :: a ++ c :: b) = link_at (x :: a)); [|rewrite Hat; lia].
  destruct a as [|c1 [|c2 a]]; [| |reflexivity].
  - cbn [app link_at]. destruct b as [|c2 b]; [reflexivity|].
    destruct (N.eqb_spec c 91); [contradiction|].
    rewrite andb_false_r. reflexivity.
  - cbn [app link_at]. destruct (N.eqb_spec c 91); [contradiction|].
    apply andb_false_r.
Qed.

Lemma countLinks_eq text : countLinks text = count_suffixes link_at text.
Proof. rewrite countLinks_length. apply link_matches_count. Qed.

Lemma countLinks_separated a c b :
  c <> 91%N -> is_link_delim c = false ->
  countLinks (a ++ c :: b) = countLinks a + countLinks b.
Proof.
  intros Hc Hd. rewrite !countLinks_eq, count_suffixes_link_at_app by exact Hc.
  cbn [count_suffixes].
  assert (Hat : link_at (c :: b) = false); [|rewrite Hat; reflexivity].
  destruct b as [|c1 [|c2 b]]; try reflexivity. cbn [link_at]. rewrite Hd. reflexivity.
Qed.

Lemma totalLinkCount_joined notes :
  totalLinkCount notes = countLinks (join newline (content <$> notes)).
Proof.
  rewrite totalLinkCount_sum. induction notes as [|n notes IH]; [reflexivity|].
  cbn [sum_list_with fmap list_fmap]. rewrite IH.
  destruct notes as [|n' notes];
    [cbn [fmap list_fmap join]; change (countLinks []) with 0; lia|].
  cbn [fmap list_fmap join]. unfold newline. cbn [app].
  rewrite (countLinks_separated (content n) 10%N); [reflexivity|discriminate|reflexivity].
Qed.

Lemma link_matches_length_bounded k : forall text,
  length text <= k -> 3 * length (link_matches text) <= length text.
Proof.
  induction k as [|k IH]; intros text Hlen.
  - destruct text; [cbn; lia | cbn in Hlen; lia].
  - destruct text as [|c rest]; [cbn; lia|]. cbn [length] in Hlen.
    pose proof (IH rest ltac:(lia)) as Hrest.
    destruct rest as [|c1 [|c2 rest2]]; try (cbn in *; lia).
    change (link_matches (c :: c1 :: c2 :: rest2))
      with (if is_link_delim c && (c1 =? 91)%N && (c2 =? 91)%N
            then [c; c1; c2] :: link_matches rest2
            else link_matches (c1 :: c2 :: rest2)).
    destruct (is_link_delim c && (c1 =? 91)%N && (c2 =? 91)%N).
    + cbn [length] in *. pose proof (IH rest2 ltac:(lia)). lia.
    + cbn [length] in *. lia.
Qed.

(** X14: two texts joined by a unit that is neither an opening bracket nor a
    space, comma or section mark have the sum of their links, so the total
    link count of a corpus is the link count of the contents of its notes
    joined with line breaks; and a text has no more links than a third of
    its length. *)
Theorem countLinks_of_joined_texts :
  (forall a c b,
     c <> 91%N -> is_link_delim c = false ->
     countLinks (a ++ c :: b) = countLinks a + countLinks b)
  /\ (forall notes,
        totalLinkCount notes = countLinks (join newline (content <$> notes)))
  /\ (forall text, 3 * countLinks text <= length text).
Proof.
  split; [exact countLinks_separated|]. split; [exact totalLinkCount_joined|].
  intros text. rewrite countLinks_length.
  apply (link_matches_length_bounded (length text)). lia.
Qed.

Lemma countLinks_of_joined_texts_witness :
  countLinks (lit "a [[b]]" ++ 10%N :: lit ", [[c]]")
  = countLinks (lit "a [[b]]") + countLinks (lit ", [[c]]").
Proof.
  apply (proj1 countLinks_of_joined_texts).
  - discriminate.
  - reflexivity.
Defined.

(** *** Cells and the year column, for every mapping *)

Lemma cell_key_of_month_number year i mm :
  month_numbers !! i = Some mm -> cell_key year i = year ++ lit "-" ++ mm.
Proof.
  intros Hmm.
  assert (Hi : i < 12) by (apply lookup_lt_Some in Hmm; exact Hmm).
  pose proof (cell_keys_of_year year) as Hkeys.
  apply (f_equal (fun l => l !! i)) in Hkeys.
  rewrite !list_lookup_fmap, Hmm, lookup_seq_lt in Hkeys by exact Hi.
  cbn [fmap option_fmap option_map Nat.add] in Hkeys. injection Hkeys as Hkeys.
  exact Hkeys.
Qed.

(** X15: a count held under a key of a four-unit year, a dash and one of the
    month numbers 01 to 12 is rendered: the string the renderer returns
    holds the row of the year, and in that row the cell of the month, after
    the cells of the months before it, is the count padded to three units. *)
Theorem valid_month_count_rendered
    (counts : gmap jsstring N) (year mm : jsstring) (i : nat) (c : N) :
  length year = 4 ->
  month_numbers !! i = Some mm ->
  counts !! (year ++ lit "-" ++ mm) = Some c ->
  row_rendered counts year
  /\ forall w,
       data_row counts w year
       = lit "| " ++ padEnd year w ++ lit " |"
         ++ row_cells counts year 0 i
         ++ lit " " ++ padEnd (String_of_N c) 3 ++ lit " |"
         ++ row_cells counts year (S i) (11 - i)
         ++ newline.
Proof.
  intros Hlen Hmm Hc.
  pose proof (cell_key_of_month_number year i mm Hmm) as Hkey.
  assert (Hi : i < 12) by (apply lookup_lt_Some in Hmm; exact Hmm).
  split.
  - apply createMonthlyTable_row_rendered, elem_of_table_years.
    exists (year ++ lit "-" ++ mm). split; [eauto|].
    unfold slice. cbn [Nat.sub]. rewrite drop_0.
    rewrite take_app_length' by (symmetry; exact Hlen). reflexivity.
  - intros w. rewrite (data_row_cell counts w year i Hi).
    unfold table_cell. rewrite Hkey, Hc. reflexivity.
Qed.

Lemma valid_month_count_rendered_witness :
  let counts : gmap jsstring N := {[ lit "2023-01" := 2%N; lit "2024-12" := 5%N ]} in
  counts !! (lit "2024" ++ lit "-" ++ lit "12") = Some 5%N
  /\ row_rendered counts (lit "2024")
  /\ forall w,
       data_row counts w (lit "2024")
       = lit "| " ++ padEnd (lit "2024") w ++ lit " |"
         ++ row_cells counts (lit "2024") 0 11
         ++ lit " " ++ padEnd (String_of_N 5) 3 ++ lit " |"
         ++ row_cells counts (lit "2024") 12 (11 - 11)
         ++ newline.
Proof.
  intros counts.
  assert (H : counts !! (lit "2024" ++ lit "-" ++ lit "12") = Some 5%N)
    by (vm_compute; reflexivity).
  split; [exact H|].
  exact (valid_month_count_rendered counts (lit "2024") (lit "12") 11 5%N
           eq_refl eq_refl H).
Defined.

(** X16: for every mapping the year column lines up: it is at least as wide
    as the heading [Year], and the heading and every year of the table,
    padded, are exactly that wide. *)
Theorem year_column_aligned (counts : gmap jsstring N) :
  4 <= maxYearWidth (table_years counts)
  /\ length (padEnd (lit "Year") (maxYearWidth (table_years counts)))
     = maxYearWidth (table_years counts)
  /\ forall y,
       y ∈ table_years counts ->
       length (padEnd y (maxYearWidth (table_years counts)))
       = maxYearWidth (table_years counts).
Proof.
  set (years := table_years counts).
  assert (H4 : 4 <= maxYearWidth years).
  { unfold maxYearWidth. apply max_list_elem_of_le, elem_of_app. right.
    apply list_elem_of_singleton. reflexivity. }
  split; [exact H4|]. split.
  - rewrite length_padEnd. change (length (lit "Year")) with 4. lia.
  - intros y Hy. rewrite length_padEnd.
    assert (length y <= maxYearWidth years); [|lia].
    unfold maxYearWidth. apply max_list_elem_of_le, elem_of_app. left.
    apply list_elem_of_fmap. eauto.
Qed.

Lemma year_column_aligned_witness :
  let counts : gmap jsstring N := {[ lit "2023-01" := 2%N; lit "12345-1" := 5%N ]} in
  lit "2023" ∈ table_years counts
  /\ length (padEnd (lit "2023") (maxYearWidth (table_years counts)))
     = maxYearWidth (table_years counts).
Proof.
  intros counts.
  assert (H : lit "2023" ∈ table_years counts).
  { apply elem_of_table_years. exists (lit "2023-01").
    split; [exists 2%N; vm_compute; reflexivity | reflexivity]. }
  split; [exact H|].
  exact (proj2 (proj2 (year_column_aligned counts)) (lit "2023") H).
Defined.
